(** * Finala — the Elasticsearch storage manager

    A shallow embedding of [api/storage/elasticsearch/elasticsearch.go]:
    the three read operations [GetSummary], [GetExecutions] and
    [GetResources] of [StorageManager], together with the helpers they
    call.

    - Go strings are byte strings: [string].
    - [int], [int64] values that the code only compares or copies: [Z].
    - [float64]: Rocq's binary64 floats ([PrimFloat.float]).
    - Go maps: [gmap]; a map variable that may be [nil] is an [option].
    - A call that can panic returns in the [go] monad.
    - The Elasticsearch client ([olivere/elastic]), [encoding/json] and
      [strconv.ParseFloat] are outside the repository: the client's [Do]
      and the decoders are the fields of [External], which the storage
      manager holds.
    - The store is outside the repository too. Where a statement is
      about what the store holds, its events, queries and aggregations
      follow the specification ([Event], [matches], [termsKeys],
      [searchEvents]), and the client is assumed to hand out what such a
      store answers ([answers_terms], [answers_search]). *)

From Stdlib Require Import ZArith Ascii String Floats.PrimFloat Sorting.Sorted.
From stdpp Require Import gmap strings list fin_maps sorting.

Local Open Scope string_scope.
Local Open Scope Z_scope.
Local Set Warnings "-register-all".

(** ** Panics *)

(** A Go call either returns or panics. *)
Inductive go (A : Type) : Type :=
| Ret (a : A)
| Panic (msg : string).
Arguments Ret {A} a.
Arguments Panic {A} msg.

Definition go_bind {A B} (m : go A) (k : A → go B) : go B :=
  match m with
  | Ret a => k a
  | Panic msg => Panic msg
  end.

Notation "x ←! m ; k" := (go_bind m (λ x, k))
  (at level 20, m at level 100, k at level 200, right associativity,
   format "x  ←!  m ;  '/' k").

(** The runtime's message for a read or a write through a nil pointer. *)
Definition nil_dereference : string :=
  "runtime error: invalid memory address or nil pointer dereference".
Definition nil_map_assignment : string :=
  "assignment to entry in nil map".
Definition index_out_of_range : string :=
  "runtime error: index out of range".

(** [p.f] for a pointer [p]: panics when [p] is nil. *)
Definition deref {A} (p : option A) : go A :=
  match p with
  | Some a => Ret a
  | None => Panic nil_dereference
  end.

(** [for _, x := range xs { acc = body(acc, x) }] where the body may
    panic. *)
Fixpoint go_foldl {A B} (body : A → B → go A) (acc : A) (xs : list B) : go A :=
  match xs with
  | [] => Ret acc
  | x :: xs' => acc' ←! body acc x; go_foldl body acc' xs'
  end.

(** ** Go maps *)

(** A variable of type [map[string]V]: [None] is the nil map. *)
Abbreviation GoMap V := (option (gmap string V)).

(** [m[k] = v]. *)
Definition map_assign {V} (m : GoMap V) (k : string) (v : V) : go (GoMap V) :=
  match m with
  | Some g => Ret (Some (<[k := v]> g))
  | None => Panic nil_map_assignment
  end.

(** [m[k]], with whether the key is there; a nil map has no key. *)
Definition map_get {V} (m : GoMap V) (k : string) : option V :=
  match m with
  | Some g => g !! k
  | None => None
  end.

(** The entries a [range] over [m] visits, in the order [map_to_list]
    fixes; a nil map has none. *)
Definition map_entries {V} (m : GoMap V) : list (string * V) :=
  match m with
  | Some g => map_to_list g
  | None => []
  end.

(** ** The parts of [strings] and [strconv] that the code calls *)

Module strings.

(** [strings.Split(s, sep)] for a separator of one byte, the only use
    in the code ([strings.Split(executionID, "_")]): the substrings
    between the separators; a string without separator gives itself. *)
Fixpoint Split (s : string) (sep : ascii) : list string :=
  match s with
  | EmptyString => [EmptyString]
  | String c s' =>
      if Ascii.eqb c sep then EmptyString :: Split s' sep
      else match Split s' sep with
           | [] => [String c EmptyString]
           | h :: t => String c h :: t
           end
  end.

(** [strings.Join(elems, sep)]. *)
Fixpoint Join (elems : list string) (sep : string) : string :=
  match elems with
  | [] => EmptyString
  | [e] => e
  | e :: rest => e +:+ sep +:+ Join rest sep
  end.

End strings.

Module strconv.

Inductive NumError := ErrSyntax | ErrRange.

Definition digit (c : ascii) : option Z :=
  let n := Z.of_N (N_of_ascii c) in
  if (48 <=? n) && (n <=? 57) then Some (n - 48) else None.

(** [strconv.ParseUint(s, 10, 64)]. The library stops at the digit
    that overflows and reports [ErrRange] there, before it has seen
    the bytes that follow. *)
Fixpoint ParseUint_go (s : string) (acc : Z) : Z + NumError :=
  match s with
  | EmptyString => inl acc
  | String c s' =>
      match digit c with
      | None => inr ErrSyntax
      | Some d =>
          if 2 ^ 64 <=? 10 * acc + d then inr ErrRange
          else ParseUint_go s' (10 * acc + d)
      end
  end.

Definition ParseUint (s : string) : Z + NumError :=
  match s with
  | EmptyString => inr ErrSyntax
  | _ => ParseUint_go s 0
  end.

(** [strconv.ParseInt(s, 10, 64)]: an optional sign, then at least one
    decimal digit and nothing else; the value must fit in 64 bits. *)
Definition ParseInt (s : string) : Z + NumError :=
  match s with
  | EmptyString => inr ErrSyntax
  | String c s' =>
      let neg := Ascii.eqb c "-" in
      let s1 := if Ascii.eqb c "+" || neg then s' else s in
      match ParseUint s1 with
      | inr ErrSyntax => inr ErrSyntax
      | inr ErrRange => inr ErrRange
      | inl un =>
          let cutoff := 2 ^ 63 in
          if negb neg && (cutoff <=? un) then inr ErrRange
          else if neg && (cutoff <? un) then inr ErrRange
          else inl (if neg then - un else un)
      end
  end.

End strconv.

(** ** Slices *)

(** [xs[:hi]]. *)
Definition slice_to {A} (xs : list A) (hi : Z) : go (list A) :=
  if (0 <=? hi) && (hi <=? Z.of_nat (length xs))
  then Ret (take (Z.to_nat hi) xs)
  else Panic index_out_of_range.

(** [xs[i]]. *)
Definition index {A} (xs : list A) (i : Z) : go A :=
  if 0 <=? i then
    match xs !! Z.to_nat i with
    | Some x => Ret x
    | None => Panic index_out_of_range
    end
  else Panic index_out_of_range.

(** ** [time] *)

Module time.

(** A [time.Time], by the seconds and nanoseconds since the epoch. *)
Record Time := mkTime { sec : Z; nsec : Z }.

(** [time.Unix(sec, nsec)]: nanoseconds outside [0, 1e9) are carried
    into the seconds. *)
Definition Unix (sec nsec : Z) : Time :=
  if (nsec <? 0) || (1000000000 <=? nsec) then
    let n := Z.quot nsec 1000000000 in
    let sec := sec + n in
    let nsec := nsec - n * 1000000000 in
    if nsec <? 0 then mkTime (sec - 1) (nsec + 1000000000)
    else mkTime sec nsec
  else mkTime sec nsec.

End time.

(** ** The types of package [storage] *)

(** A [json.RawMessage]: the bytes of a JSON value, not decoded. *)
Abbreviation RawMessage := string (only parsing).

(** A Go [error] value, by its message; [None] is the nil error. *)
Abbreviation error := (option string) (only parsing).

Module storage.

(** Modelled from the spec: the declaration of [storage.SummaryData] is
    not among the sources; the payload of a status event with its
    recognised sub-fields [Status] and [ErrorMessage]. *)
Record SummaryData := mkSummaryData {
  SummaryData_Status : Z;
  SummaryData_ErrorMessage : string
}.

(** Modelled from the spec: the declaration of [storage.Summary] is not
    among the sources; a decoded [service_status] document. *)
Record Summary := mkSummary {
  Summary_ResourceName : string;
  Summary_EventTime : Z;
  Summary_Data : SummaryData
}.

(** Modelled from the spec: the declaration of
    [storage.CollectorsSummary] is not among the sources; a summary row:
    the latest status of a resource, its total spend and the count of
    its detected resources. *)
Record CollectorsSummary := mkCollectorsSummary {
  CollectorsSummary_ResourceName : string;
  CollectorsSummary_ResourceCount : Z;
  CollectorsSummary_TotalSpent : float;
  CollectorsSummary_Status : Z;
  CollectorsSummary_ErrorMessage : string;
  CollectorsSummary_EventTime : Z
}.

(** Modelled from the spec: the declaration of [storage.Executions] is
    not among the sources; an execution record. *)
Record Executions := mkExecutions {
  Executions_ID : string;
  Executions_Name : string;
  Executions_Time : time.Time
}.

End storage.

(** ** The types of the Elasticsearch client that the code touches *)

Module elastic.

Inductive Query :=
| MatchQuery (name text : string)
| BoolQuery (must filter should : list Query).

Inductive Aggregation :=
| SumAggregation (field : string)
| MaxAggregation (field : string)
| TermsAggregation (field : string) (size : Z)
    (order : list (string * bool)) (subs : list (string * Aggregation))
| FiltersAggregation (filters : list Query)
    (subs : list (string * Aggregation)).

(** What a [SearchService] has been given when [Do] is called. *)
Record SearchRequest := mkSearchRequest {
  SearchRequest_query : option Query;
  SearchRequest_aggregations : list (string * Aggregation);
  SearchRequest_size : option Z;
  SearchRequest_pretty : bool
}.

Record SearchHit := mkSearchHit { SearchHit_Source : RawMessage }.

(** [Hits] and [Hits.TotalHits] are pointers in the client; a decoded
    search response carries both, and they are taken as present. *)
Record SearchHits := mkSearchHits {
  SearchHits_TotalHits : Z;
  SearchHits_Hits : list SearchHit
}.

Record SearchResult := mkSearchResult {
  SearchResult_TookInMillis : Z;
  SearchResult_Hits : SearchHits;
  SearchResult_Aggregations : gmap string RawMessage
}.

Record AggregationBucketKeyItem := mkAggregationBucketKeyItem {
  AggregationBucketKeyItem_Aggregations : gmap string RawMessage
}.

Record AggregationBucketKeyItems := mkAggregationBucketKeyItems {
  AggregationBucketKeyItems_Aggregations : gmap string RawMessage;
  AggregationBucketKeyItems_Buckets : list AggregationBucketKeyItem
}.

End elastic.

(** [orderedExecutionIDs]: what the [ExecutionIDDesc] aggregation of
    [GetExecutions] is decoded into, a list of buckets, each with its
    [Key]. *)
Record orderedExecutionIDs := mkOrderedExecutionIDs {
  orderedExecutionIDs_Buckets : list string
}.

(** A decoded JSON value, as [encoding/json] stores it in an
    [interface{}]. *)
Inductive JSON :=
| JNull
| JBool (b : bool)
| JNumber (f : float)
| JString (s : string)
| JArray (elems : list JSON)
| JObject (fields : list (string * JSON)).

(** ** The storage manager *)

(** What lies outside the repository: the store behind the client, in
    its current state, and the decoders of the libraries. *)
Record External := mkExternal {
  (** [sm.client.Search()...Do(ctx)]: the result pointer and the error,
      as the client returns them. Every error path of the client's
      [SearchService.Do] is [return nil, err]: an error comes with the
      nil result. *)
  Do : elastic.SearchRequest → option elastic.SearchResult * error;
  (** [searchResult.Each(reflect.TypeOf(summaryData))] followed by the
      type assertion [item.(storage.Summary)] of the loop: the items the
      client decoded from the hits, [None] where the assertion fails. *)
  Each : elastic.SearchResult → list (option storage.Summary);
  (** The client's decoder of a bucket aggregation. *)
  unmarshalItems : RawMessage → option elastic.AggregationBucketKeyItems;
  (** [json.Unmarshal(raw, &executionsIDs)] on a zero
      [orderedExecutionIDs]: what the value holds afterwards, and the
      error. *)
  unmarshalIDs : RawMessage → orderedExecutionIDs * error;
  (** [json.Unmarshal(raw, &rowData)] on a map: what the map holds
      afterwards, and the error. *)
  unmarshalRow : RawMessage → gmap string JSON → gmap string JSON * error;
  (** [strconv.ParseFloat(s, 64)]. *)
  ParseFloat : string → float * error
}.

Record StorageManager := mkStorageManager {
  client : External;
  defaultIndex : string
}.

(** [Aggregations.Terms(name)] of the client: the aggregation of that
    name, when the response has it and it decodes. *)
Definition Terms (sm : StorageManager) (a : gmap string RawMessage)
    (name : string) : option elastic.AggregationBucketKeyItems :=
  match a !! name with
  | Some raw => unmarshalItems (client sm) raw
  | None => None
  end.

(** *** [getDynamicMatchQuery] *)

(** One match query for each filter. The clauses go into the [must] of
    a bool query, a conjunction, so the order in which [range] visits
    the filters is immaterial to the store; it is fixed to that of
    [map_entries]. *)
Definition getDynamicMatchQuery (sm : StorageManager)
    (filters : GoMap string) : list elastic.Query :=
  foldl (λ dynamicMatchQuery '(name, value),
           (dynamicMatchQuery ++ [elastic.MatchQuery name value])%list)
        [] (map_entries filters).

(** *** [GetSummary] *)

(** The search for the status events of an execution. *)
Definition statusRequest (executionID : string) : elastic.SearchRequest :=
  let executionIDQuery := elastic.MatchQuery "ExecutionID" executionID in
  let eventTypeQuery := elastic.MatchQuery "EventType" "service_status" in
  elastic.mkSearchRequest
    (Some (elastic.BoolQuery [eventTypeQuery; executionIDQuery] [] []))
    [] (Some 100) true.

(** The search of [getResourceSummaryDetails]: the filters, the
    execution and the event type as a conjunction, the sum of
    [Data.PricePerMonth], and no document. *)
Definition detailsRequest (sm : StorageManager) (executionID : string)
    (filters : GoMap string) : elastic.SearchRequest :=
  let dynamicMatchQuery := getDynamicMatchQuery sm filters in
  let dynamicMatchQuery :=
    (dynamicMatchQuery ++ [elastic.MatchQuery "ExecutionID" executionID])%list in
  let dynamicMatchQuery :=
    (dynamicMatchQuery ++ [elastic.MatchQuery "EventType" "resource_detected"])%list in
  elastic.mkSearchRequest
    (Some (elastic.BoolQuery dynamicMatchQuery [] []))
    [("sum", elastic.SumAggregation "Data.PricePerMonth")]
    (Some 0) false.

(** [getResourceSummaryDetails]: the total spent, the count of the
    resources, and the error. *)
Definition getResourceSummaryDetails (sm : StorageManager)
    (executionID : string) (filters : GoMap string) : go (float * Z * error) :=
  let totalSpent := 0%float in
  let resourceCount := 0 in
  let '(searchResult, err) := Do (client sm) (detailsRequest sm executionID filters) in
  match err with
  | Some e =>
      (* the fields of the log entry read searchResult.TookInMillis *)
      _ ←! deref searchResult;
      Ret (totalSpent, resourceCount, Some e)
  | None =>
      r ←! deref searchResult;
      match Terms sm (elastic.SearchResult_Aggregations r) "sum" with
      | Some resp =>
          match elastic.AggregationBucketKeyItems_Aggregations resp !! "value" with
          | Some val =>
              Ret ((ParseFloat (client sm) val).1,
                   elastic.SearchHits_TotalHits (elastic.SearchResult_Hits r),
                   None)
          | None => Ret (totalSpent, resourceCount, None)
          end
      | None => Ret (totalSpent, resourceCount, None)
      end
  end.

(** The row that the first loop stores for a status document; its spend
    and count are the zero values. *)
Definition statusRow (summaryRow : storage.Summary) : storage.CollectorsSummary :=
  {| storage.CollectorsSummary_ResourceName := storage.Summary_ResourceName summaryRow;
     storage.CollectorsSummary_ResourceCount := 0;
     storage.CollectorsSummary_TotalSpent := 0%float;
     storage.CollectorsSummary_Status :=
       storage.SummaryData_Status (storage.Summary_Data summaryRow);
     storage.CollectorsSummary_ErrorMessage :=
       storage.SummaryData_ErrorMessage (storage.Summary_Data summaryRow);
     storage.CollectorsSummary_EventTime := storage.Summary_EventTime summaryRow |}.

(** The body of the first loop of [GetSummary]: an item that is no
    [storage.Summary] is skipped; a document older than the row of its
    resource is skipped; any other replaces the row. *)
Definition mergeStatus (summary : gmap string storage.CollectorsSummary)
    (item : option storage.Summary) : gmap string storage.CollectorsSummary :=
  match item with
  | None => summary
  | Some summaryRow =>
      let name := storage.Summary_ResourceName summaryRow in
      match summary !! name with
      | Some val =>
          if storage.Summary_EventTime summaryRow
             <? storage.CollectorsSummary_EventTime val
          then summary
          else <[name := statusRow summaryRow]> (delete name summary)
      | None => <[name := statusRow summaryRow]> summary
      end
  end.

(** [resourceData] with the spend and the count of its resources. *)
Definition withDetails (resourceData : storage.CollectorsSummary)
    (totalSpent : float) (resourceCount : Z) : storage.CollectorsSummary :=
  {| storage.CollectorsSummary_ResourceName :=
       storage.CollectorsSummary_ResourceName resourceData;
     storage.CollectorsSummary_ResourceCount := resourceCount;
     storage.CollectorsSummary_TotalSpent := totalSpent;
     storage.CollectorsSummary_Status :=
       storage.CollectorsSummary_Status resourceData;
     storage.CollectorsSummary_ErrorMessage :=
       storage.CollectorsSummary_ErrorMessage resourceData;
     storage.CollectorsSummary_EventTime :=
       storage.CollectorsSummary_EventTime resourceData |}.

(** The body of the second loop of [GetSummary], on the summary and the
    caller's filters: the name is written into the filters, and the row
    gets the spend and the count unless their query failed. *)
Definition addDetails (sm : StorageManager) (executionID : string)
    (st : gmap string storage.CollectorsSummary * GoMap string)
    (entry : string * storage.CollectorsSummary)
  : go (gmap string storage.CollectorsSummary * GoMap string) :=
  let '(summary, filters) := st in
  let '(resourceName, resourceData) := entry in
  filters ←! map_assign filters "ResourceName" resourceName;
  details ←! getResourceSummaryDetails sm executionID filters;
  let '(totalSpent, resourceCount, err) := details in
  match err with
  | Some _ => Ret (summary, filters)
  | None =>
      let newResourceData := withDetails resourceData totalSpent resourceCount in
      Ret (<[resourceName := newResourceData]> summary, filters)
  end.

(** The order in which the runtime visits the entries of a map in a
    [range] loop, which the language leaves open. *)
Abbreviation RangeOrder V := (gmap string V → list (string * V)) (only parsing).

(** An order the runtime can take: every entry once. *)
Definition range_ok {V} (range : RangeOrder V) : Prop :=
  ∀ m, range m ≡ₚ map_to_list m.

(** [GetSummary]. [filters] is the caller's map, which the second loop
    writes to: the third component of the result is what that map holds
    when the call returns. [range] is the order of the second loop over
    the summary. *)
Definition GetSummary (sm : StorageManager)
    (range : RangeOrder storage.CollectorsSummary)
    (executionID : string) (filters : GoMap string)
  : go (gmap string storage.CollectorsSummary * error * GoMap string) :=
  let summary := ∅ in
  let '(searchResult, err) := Do (client sm) (statusRequest executionID) in
  match err with
  | Some e => Ret (summary, Some e, filters)
  | None =>
      (* the fields of the debug entry read the search result *)
      r ←! deref searchResult;
      let summary := foldl mergeStatus summary (Each (client sm) r) in
      st ←! go_foldl (addDetails sm executionID) (summary, filters) (range summary);
      Ret (st.1, None, st.2)
  end.

(** *** [GetExecutions] *)

(** The search that [GetExecutions] builds: no query, one filters
    aggregation on the status events, in it the terms of
    [ExecutionID.keyword], at most [queryLimit] of them, in descending
    order of their [MaxEventTime]. *)
Definition executionsRequest (queryLimit : Z) : elastic.SearchRequest :=
  elastic.mkSearchRequest None
    [("orderedExecutionID",
      elastic.FiltersAggregation
        [elastic.BoolQuery []
           [elastic.BoolQuery [] []
              [elastic.MatchQuery "EventType" "service_status"]] []]
        [("ExecutionIDDesc",
          elastic.TermsAggregation "ExecutionID.keyword" queryLimit
            [("MaxEventTime", false)]
            [("MaxEventTime", elastic.MaxAggregation "EventTime")])])]
    None false.

(** The body of the inner loop of [GetExecutions], for one bucket key:
    the executions with the record of [executionID] appended, or
    unchanged when its last segment is no integer. *)
Definition appendExecution (executions : list storage.Executions)
    (executionID : string) : go (list storage.Executions) :=
  let data := strings.Split executionID "_" in
  names ←! slice_to data (Z.of_nat (length data) - 1);
  let executionName := strings.Join names "_" in
  last ←! index data (Z.of_nat (length data) - 1);
  match strconv.ParseInt last with
  | inr _ => Ret executions
  | inl collectorExecutionTime =>
      Ret (executions ++
           [storage.mkExecutions executionID executionName
              (time.Unix collectorExecutionTime 0)])%list
  end.

(** The body of the outer loop: the keys of one bucket of the filters
    aggregation. An aggregation that is missing reads as no bytes; a
    decoding error is logged and what was decoded is used. *)
Definition appendBucket (sm : StorageManager)
    (executions : list storage.Executions)
    (ExecutionIDBuckets : elastic.AggregationBucketKeyItem)
  : go (list storage.Executions) :=
  let descOrderedExecutionIDs :=
    default EmptyString
      (elastic.AggregationBucketKeyItem_Aggregations ExecutionIDBuckets
         !! "ExecutionIDDesc") in
  let '(executionsIDs, _) := unmarshalIDs (client sm) descOrderedExecutionIDs in
  go_foldl appendExecution executions
    (orderedExecutionIDs_Buckets executionsIDs).

Definition GetExecutions (sm : StorageManager) (queryLimit : Z)
  : go (list storage.Executions * error) :=
  let executions := [] in
  let '(searchResult, err) := Do (client sm) (executionsRequest queryLimit) in
  match err with
  | Some _ =>
      (* the fields of the log entry read searchResult.TookInMillis *)
      _ ←! deref searchResult;
      Ret (executions, None)
  | None =>
      r ←! deref searchResult;
      match Terms sm (elastic.SearchResult_Aggregations r) "orderedExecutionID" with
      | None => Ret (executions, None)
      | Some resp =>
          executions ←! go_foldl (appendBucket sm) executions
            (elastic.AggregationBucketKeyItems_Buckets resp);
          Ret (executions, None)
      end
  end.

(** *** [GetResources] *)

Definition resourcesRequest (resourceType executionID : string)
  : elastic.SearchRequest :=
  let componentQ := elastic.MatchQuery "EventType" "resource_detected" in
  let deploymentQ := elastic.MatchQuery "ExecutionID" executionID in
  let ResourceNameQ := elastic.MatchQuery "ResourceName" resourceType in
  elastic.mkSearchRequest
    (Some (elastic.BoolQuery [componentQ; deploymentQ; ResourceNameQ] [] []))
    [] (Some 100) true.

(** The body of the loop of [GetResources]: the hit is decoded into a
    fresh map; an error is logged, and the map is appended. *)
Definition appendResource (sm : StorageManager)
    (resources : list (gmap string JSON)) (hit : elastic.SearchHit)
  : list (gmap string JSON) :=
  let rowData := ∅ in
  let '(rowData, _) := unmarshalRow (client sm) (elastic.SearchHit_Source hit) rowData in
  (resources ++ [rowData])%list.

Definition GetResources (sm : StorageManager) (resourceType executionID : string)
  : go (list (gmap string JSON) * error) :=
  let resources := [] in
  let '(searchResult, err) :=
    Do (client sm) (resourcesRequest resourceType executionID) in
  match err with
  | Some e => Ret (resources, Some e)
  | None =>
      r ←! deref searchResult;
      Ret (foldl (appendResource sm) resources
             (elastic.SearchHits_Hits (elastic.SearchResult_Hits r)),
           None)
  end.

(** ** What the loops compute *)

(** The record that the inner loop of [GetExecutions] makes of an
    identifier: the last segment is the time, the segments before it are
    the name; none when the last segment is no integer. *)
Definition executionOf (executionID : string) : option storage.Executions :=
  let data := strings.Split executionID "_" in
  match strconv.ParseInt (List.last data EmptyString) with
  | inl collectorExecutionTime =>
      Some (storage.mkExecutions executionID
              (strings.Join (removelast data) "_")
              (time.Unix collectorExecutionTime 0))
  | inr _ => None
  end.

(** The keys that the outer loop of [GetExecutions] decodes from one
    bucket of the filters aggregation. *)
Definition bucketKeys (sm : StorageManager)
    (ExecutionIDBuckets : elastic.AggregationBucketKeyItem) : list string :=
  orderedExecutionIDs_Buckets
    (unmarshalIDs (client sm)
       (default EmptyString
          (elastic.AggregationBucketKeyItem_Aggregations ExecutionIDBuckets
             !! "ExecutionIDDesc"))).1.

(** A string without the byte [c]. *)
Fixpoint free_of (c : ascii) (s : string) : bool :=
  match s with
  | EmptyString => true
  | String a s' => negb (Ascii.eqb a c) && free_of c s'
  end.

(** The documents among the items of the first loop of [GetSummary]. *)
Definition statusDocs (items : list (option storage.Summary)) : list storage.Summary :=
  omap id items.

(** [latest] is a document of the resource [name] among [docs], and none
    of its documents there is later. *)
Definition latest_among (docs : list storage.Summary) (name : string)
    (latest : storage.Summary) : Prop :=
  latest ∈ docs
  ∧ storage.Summary_ResourceName latest = name
  ∧ ∀ d, d ∈ docs → storage.Summary_ResourceName d = name →
         storage.Summary_EventTime d ≤ storage.Summary_EventTime latest.

(** The summary after the first loop of [GetSummary]. *)
Definition statusSummary (items : list (option storage.Summary))
  : gmap string storage.CollectorsSummary :=
  foldl mergeStatus ∅ items.

(** The cost search of a resource as the second loop of [GetSummary]
    issues it: with the name written into the caller's filters. *)
Definition detailsOf (sm : StorageManager) (executionID : string)
    (filters : gmap string string) (resourceName : string)
  : go (float * Z * error) :=
  getResourceSummaryDetails sm executionID
    (Some (<["ResourceName" := resourceName]> filters)).

(** The row of a resource after the second loop, given the answer to its
    cost search. *)
Definition detailedRow (resourceData : storage.CollectorsSummary)
    (details : float * Z * error) : storage.CollectorsSummary :=
  match details with
  | (totalSpent, resourceCount, None) =>
      withDetails resourceData totalSpent resourceCount
  | (_, _, Some _) => resourceData
  end.

(** The effect of the body of the second loop on the summary alone. *)
Definition addDetailsTo (sm : StorageManager) (executionID : string)
    (filters : gmap string string)
    (summary : gmap string storage.CollectorsSummary)
    (entry : string * storage.CollectorsSummary)
  : go (gmap string storage.CollectorsSummary) :=
  details ←! detailsOf sm executionID filters entry.1;
  match details.2 with
  | Some _ => Ret summary
  | None => Ret (<[entry.1 := detailedRow entry.2 details]> summary)
  end.

(** What the caller's filters hold after the second loop has visited
    [entries]: the name of the last one, written over [ResourceName]. *)
Definition filtersAfter {V} (filters : gmap string string)
    (entries : list (string * V)) : gmap string string :=
  match last entries with
  | Some entry => <["ResourceName" := entry.1]> filters
  | None => filters
  end.

(** ** Stores to run the code on *)

(** Raw bodies are opaque to the embedding; the stores below decode them
    by table. *)

Definition matchText (name : string) (q : elastic.Query) : option string :=
  match q with
  | elastic.MatchQuery n text => if String.eqb n name then Some text else None
  | elastic.BoolQuery _ _ _ => None
  end.

(** The text that the [must] clauses of a search ask of a field. *)
Definition mustText (name : string) (req : elastic.SearchRequest) : option string :=
  match elastic.SearchRequest_query req with
  | Some (elastic.BoolQuery must _ _) => head (omap (matchText name) must)
  | _ => None
  end.

Definition hasAggregation (name : string) (req : elastic.SearchRequest) : bool :=
  existsb (λ '(n, _), String.eqb n name) (elastic.SearchRequest_aggregations req).

(** A client whose store answers the status search with [status], the
    cost search of a resource with [details] of its name, the search of
    [GetExecutions] with [executions] and any other search with
    [resources], and whose decoders read the tables. *)
Definition tableClient
    (status : option elastic.SearchResult * error)
    (docs : list (option storage.Summary))
    (details : string → option elastic.SearchResult * error)
    (executions resources : option elastic.SearchResult * error)
    (items : list (string * elastic.AggregationBucketKeyItems))
    (ids : list (string * list string))
    (rows : list (string * list (string * JSON)))
    (floats : list (string * float)) : External :=
  {| Do := λ req,
       if hasAggregation "sum" req
       then details (default EmptyString (mustText "ResourceName" req))
       else if hasAggregation "orderedExecutionID" req then executions
       else if String.eqb (default EmptyString (mustText "EventType" req))
                    "service_status"
       then status
       else resources;
     Each := λ _, docs;
     unmarshalItems := λ raw, (list_to_map items : gmap string _) !! raw;
     unmarshalIDs := λ raw,
       match (list_to_map ids : gmap string _) !! raw with
       | Some keys => (mkOrderedExecutionIDs keys, None)
       | None => (mkOrderedExecutionIDs [], Some "unexpected end of JSON input")
       end;
     unmarshalRow := λ raw rowData,
       match (list_to_map rows : gmap string _) !! raw with
       | Some fields => (list_to_map fields ∪ rowData, None)
       | None => (rowData, Some "invalid character")
       end;
     ParseFloat := λ s,
       match (list_to_map floats : gmap string _) !! s with
       | Some f => (f, None)
       | None => (0%float, Some "invalid syntax")
       end |}.

(** A search result with these hits and aggregations. *)
Definition result (hits : list string) (aggregations : list (string * string))
  : elastic.SearchResult :=
  elastic.mkSearchResult 1
    (elastic.mkSearchHits (Z.of_nat (length hits)) (elastic.mkSearchHit <$> hits))
    (list_to_map aggregations).

(** The answer of a store that cannot be reached: the client returns no
    result. *)
Definition unreachable : option elastic.SearchResult * error :=
  (None, Some "connection refused").

Definition statusDoc (name : string) (eventTime status : Z) (message : string)
  : storage.Summary :=
  storage.mkSummary name eventTime (storage.mkSummaryData status message).

(** The cost of a resource: a sum of 12.5 over 2 documents. *)
Definition costResult : elastic.SearchResult :=
  elastic.mkSearchResult 1 (elastic.mkSearchHits 2 [])
    {[ "sum" := "{value:12.5}" ]}.

Definition costTables : list (string * elastic.AggregationBucketKeyItems) :=
  [("{value:12.5}",
    elastic.mkAggregationBucketKeyItems {[ "value" := "12.5" ]} [])].

(** The status of [ec2] reported three times, at 10, 30 and 20. *)
Definition threeReports : StorageManager :=
  mkStorageManager
    (tableClient
       (Some (result ["s10"; "s30"; "s20"] []), None)
       [Some (statusDoc "ec2" 10 0 "fetching");
        Some (statusDoc "ec2" 30 2 "finished");
        Some (statusDoc "ec2" 20 1 "throttled")]
       (λ _, (Some costResult, None))
       unreachable unreachable costTables [] [] [("12.5", 12.5%float)])
    "finala".

(** The status of [ec2] reported twice at the same time. *)
Definition tiedReports : StorageManager :=
  mkStorageManager
    (tableClient
       (Some (result ["first"; "second"] []), None)
       [Some (statusDoc "ec2" 10 1 "first"); Some (statusDoc "ec2" 10 2 "second")]
       (λ _, (Some costResult, None))
       unreachable unreachable costTables [] [] [("12.5", 12.5%float)])
    "finala".

(** A store whose answer to the cost search has no [sum] aggregation. *)
Definition noSum : StorageManager :=
  mkStorageManager
    (tableClient
       (Some (result ["s10"] []), None)
       [Some (statusDoc "ec2" 10 0 EmptyString)]
       (λ _, (Some (result [] [("total", "{value:12.5}")]), None))
       unreachable unreachable costTables [] [] [("12.5", 12.5%float)])
    "finala".

(** A store that cannot be reached for the status search. *)
Definition statusDown : StorageManager :=
  mkStorageManager
    (tableClient unreachable [] (λ _, (Some costResult, None))
       unreachable unreachable costTables [] [] [("12.5", 12.5%float)])
    "finala".

(** Two resources; the cost search fails for [rds] alone. *)
Definition rdsCostDown : StorageManager :=
  mkStorageManager
    (tableClient
       (Some (result ["ec2"; "rds"] []), None)
       [Some (statusDoc "ec2" 10 0 EmptyString);
        Some (statusDoc "rds" 11 0 EmptyString)]
       (λ name, if String.eqb name "rds" then unreachable
                else (Some costResult, None))
       unreachable unreachable costTables [] [] [("12.5", 12.5%float)])
    "finala".

(** Two resources, whose cost searches succeed. *)
Definition twoResources : StorageManager :=
  mkStorageManager
    (tableClient
       (Some (result ["ec2"; "rds"] []), None)
       [Some (statusDoc "ec2" 10 0 EmptyString);
        Some (statusDoc "rds" 11 0 EmptyString)]
       (λ _, (Some costResult, None))
       unreachable unreachable costTables [] [] [("12.5", 12.5%float)])
    "finala".

(** As [rdsCostDown], with a client that would hand out a result next to
    the error. *)
Definition rdsCostError : StorageManager :=
  mkStorageManager
    (tableClient
       (Some (result ["ec2"; "rds"] []), None)
       [Some (statusDoc "ec2" 10 0 EmptyString);
        Some (statusDoc "rds" 11 0 EmptyString)]
       (λ name, if String.eqb name "rds"
                then (Some (result [] []), Some "search_phase_execution_exception")
                else (Some costResult, None))
       unreachable unreachable costTables [] [] [("12.5", 12.5%float)])
    "finala".

(** The keys of a decoded [orderedExecutionID] aggregation, bucket after
    bucket. *)
Definition executionKeys (sm : StorageManager)
    (resp : elastic.AggregationBucketKeyItems) : list string :=
  concat (bucketKeys sm <$> elastic.AggregationBucketKeyItems_Buckets resp).

(** A store whose answer to the search of [GetExecutions] is one bucket
    with these keys. *)
Definition executionsStore (keys : list string) : StorageManager :=
  mkStorageManager
    (tableClient unreachable [] (λ _, unreachable)
       (Some (result [] [("orderedExecutionID", "{buckets:[...]}")]), None)
       unreachable
       [("{buckets:[...]}",
         elastic.mkAggregationBucketKeyItems ∅
           [elastic.mkAggregationBucketKeyItem {[ "ExecutionIDDesc" := "{keys}" ]}])]
       [("{keys}", keys)] [] [])
    "finala".

(** A store that cannot be reached at all. *)
Definition storeDown : StorageManager :=
  mkStorageManager
    (tableClient unreachable [] (λ _, unreachable) unreachable unreachable
       [] [] [] [])
    "finala".

(** A store whose answer has no [orderedExecutionID] aggregation. *)
Definition noExecutionsAggregation : StorageManager :=
  mkStorageManager
    (tableClient unreachable [] (λ _, unreachable)
       (Some (result [] []), None) unreachable [] [] [] [])
    "finala".

(** Two hits for [GetResources]; the second is no JSON object. *)
Definition brokenHit : StorageManager :=
  mkStorageManager
    (tableClient unreachable [] (λ _, unreachable) unreachable
       (Some (result ["{id:i-1}"; "{id:"] []), None)
       [] [] [("{id:i-1}", [("id", JString "i-1")])] [])
    "finala".

(** ** The store *)

(** Modelled from the spec: the event document of the data model, the
    only entity the store holds; its [Data] is left out. The store
    itself is not part of the sources. *)
Record Event := mkEvent {
  Event_ResourceName : string;
  Event_ExecutionID : string;
  Event_EventType : string;
  Event_EventTime : Z
}.

(** Modelled from the spec: the text the store reads under a field name
    for a match or a grouping, that of the three keyword fields. The
    spec has the searches group by [ResourceName] and by [ExecutionID]
    where the code names their [.keyword] sub-field, so both names read
    the field. No other field has a text. *)
Definition fieldText (name : string) (e : Event) : option string :=
  if String.eqb name "ResourceName" || String.eqb name "ResourceName.keyword"
  then Some (Event_ResourceName e)
  else if String.eqb name "ExecutionID" || String.eqb name "ExecutionID.keyword"
  then Some (Event_ExecutionID e)
  else if String.eqb name "EventType" || String.eqb name "EventType.keyword"
  then Some (Event_EventType e)
  else None.

(** Modelled from the spec: the query interface of the store; a match is
    an equality on a keyword field, a bool query the conjunction of its
    [must] and [filter] clauses, and, when it has neither, of one of its
    [should] clauses at least. *)
Fixpoint matches (q : elastic.Query) (e : Event) : bool :=
  match q with
  | elastic.MatchQuery name text =>
      match fieldText name e with
      | Some t => String.eqb t text
      | None => false
      end
  | elastic.BoolQuery must filter should =>
      let all := fix all (qs : list elastic.Query) : bool :=
        match qs with
        | [] => true
        | q' :: qs' => matches q' e && all qs'
        end in
      let any := fix any (qs : list elastic.Query) : bool :=
        match qs with
        | [] => false
        | q' :: qs' => matches q' e || any qs'
        end in
      all must && all filter
      && match must, filter, should with
         | [], [], _ :: _ => any should
         | _, _, _ => true
         end
  end.

(** The greatest of some times; none of no time. *)
Definition latest (times : list Z) : option Z :=
  foldr (λ t acc, Some (match acc with Some m => Z.max t m | None => t end))
        None times.

(** Modelled from the spec: the value of a max sub-aggregation over
    [EventTime] in the bucket of [key]: the latest [EventTime] of the
    events of [events] with that text under [field]. *)
Definition bucketMax (field : string) (events : list Event) (key : string)
  : option Z :=
  latest (Event_EventTime
            <$> filter (λ e, fieldText field e = Some key) events).

(** [x] comes no later than [y] in the order of the values: descending,
    or ascending for [asc]; a bucket without value comes last. *)
Definition value_before (asc : bool) (x y : option Z) : bool :=
  match x, y with
  | Some a, Some b => if asc then a <=? b else b <=? a
  | Some _, None => true
  | None, Some _ => false
  | None, None => true
  end.

Definition bucket_before (asc : bool) (value : string → option Z) (a b : string)
  : Prop :=
  value_before asc (value a) (value b) = true.

#[global] Instance bucket_before_dec asc value : RelDecision (bucket_before asc value) :=
  λ a b, decide (value_before asc (value a) (value b) = true).

(** Modelled from the spec: the keys of a terms aggregation on [field]
    over the events that match [filter], ordered by a max
    sub-aggregation over [EventTime], descending unless [asc], and
    capped at [size] buckets. *)
Definition termsKeys (docs : list Event) (filter_ : elastic.Query)
    (field : string) (size : Z) (asc : bool) : list string :=
  let events := filter (λ e, matches filter_ e = true) docs in
  let keys := remove_dups (omap (fieldText field) events) in
  take (Z.to_nat size)
    (merge_sort (bucket_before asc (bucketMax field events)) keys).





(** Modelled from the spec: the hits of a search with a query and a page
    size, the first [size] of the events that match, in the order in
    which the store ranks them, which is that of [docs]. *)
Definition searchEvents (docs : list Event) (q : elastic.Query) (size : Z)
  : list Event :=
  take (Z.to_nat size) (filter (λ e, matches q e = true) docs).

(** The client of [sm] talks to a store that holds [docs] and can be
    reached: every search with a query and a page size that is not
    negative is answered with the hits of [searchEvents], and the source
    of the hit of an event decodes into [row] of it. *)
Definition answers_search (sm : StorageManager) (docs : list Event)
    (row : Event → gmap string JSON) : Prop :=
  ∀ q size pretty,
    0 ≤ size →
    ∃ r,
      Do (client sm) (elastic.mkSearchRequest (Some q) [] (Some size) pretty)
      = (Some r, None)
      ∧ Forall2
          (λ hit e,
             unmarshalRow (client sm) (elastic.SearchHit_Source hit) ∅
             = (row e, None))
          (elastic.SearchHits_Hits (elastic.SearchResult_Hits r))
          (searchEvents docs q size).

(** ** A store that runs the aggregation *)

(** The raw bodies of [engineStore]: a list of texts, each with its
    bytes [;] and [!] escaped by [!], and ended by [;]. *)
Definition escapeByte : ascii := "!"%char.
Definition endByte : ascii := ";"%char.

Fixpoint encodeText (s rest : string) : string :=
  match s with
  | EmptyString => String endByte rest
  | String c s' =>
      if Ascii.eqb c escapeByte || Ascii.eqb c endByte
      then String escapeByte (String c (encodeText s' rest))
      else String c (encodeText s' rest)
  end.

Definition encodeTexts (texts : list string) : string :=
  foldr encodeText EmptyString texts.

(** [c] in front of the first of [texts]. *)
Definition consText (c : ascii) (texts : list string) : list string :=
  match texts with
  | [] => []
  | text :: texts' => String c text :: texts'
  end.

Fixpoint decodeTexts (s : string) : list string :=
  match s with
  | EmptyString => []
  | String c s' =>
      if Ascii.eqb c endByte then EmptyString :: decodeTexts s'
      else if Ascii.eqb c escapeByte then
        match s' with
        | EmptyString => []
        | String c' s'' => consText c' (decodeTexts s'')
        end
      else consText c (decodeTexts s')
  end.

(** The source of an event in [engineStore], and what it decodes into:
    the three keyword fields; the rest of the document is left out. *)
Definition sourceOf (e : Event) : RawMessage :=
  encodeTexts [Event_ResourceName e; Event_ExecutionID e; Event_EventType e].

Definition rowOf (e : Event) : gmap string JSON :=
  {[ "ResourceName" := JString (Event_ResourceName e);
     "ExecutionID" := JString (Event_ExecutionID e);
     "EventType" := JString (Event_EventType e) ]}.

(** A client on a store that holds [docs], can be reached, and runs the
    searches of the shape of [termsRequest] as [termsKeys] says and the
    searches with a query and a page size as [searchEvents] says; it
    rejects every other search. *)
Definition engineStore (docs : list Event) : StorageManager :=
  mkStorageManager
    {| Do := λ req,
         match req with
         | elastic.mkSearchRequest None
             [(name,
               elastic.FiltersAggregation [filter_]
                 [(sub,
                   elastic.TermsAggregation field size [(metric, asc)]
                     [(metric', elastic.MaxAggregation over)])])]
             None false =>
             if String.eqb metric metric' && String.eqb over "EventTime"
                && (0 <? size)
             then
               (Some (elastic.mkSearchResult 1 (elastic.mkSearchHits 0 [])
                        {[ name :=
                             encodeTexts
                               [sub;
                                encodeTexts
                                  (termsKeys docs filter_ field size asc)] ]}),
                None)
             else (None, Some "illegal_argument_exception")
         | elastic.mkSearchRequest (Some q) [] (Some size) _ =>
             if 0 <=? size then
               (Some (elastic.mkSearchResult 1
                        (elastic.mkSearchHits
                           (Z.of_nat
                              (length (filter (λ e, matches q e = true) docs)))
                           ((λ e, elastic.mkSearchHit (sourceOf e))
                              <$> searchEvents docs q size))
                        ∅),
                None)
             else (None, Some "illegal_argument_exception")
         | _ => (None, Some "illegal_argument_exception")
         end;
       Each := λ _, [];
       unmarshalItems := λ raw,
         match decodeTexts raw with
         | [sub; keys] =>
             Some (elastic.mkAggregationBucketKeyItems ∅
                     [elastic.mkAggregationBucketKeyItem {[ sub := keys ]}])
         | _ => None
         end;
       unmarshalIDs := λ raw,
         (mkOrderedExecutionIDs (decodeTexts raw), None);
       unmarshalRow := λ raw rowData,
         match decodeTexts raw with
         | [resourceName; executionID; eventType] =>
             (rowOf (mkEvent resourceName executionID eventType 0) ∪ rowData,
              None)
         | _ => (rowData, Some "invalid character")
         end;
       ParseFloat := λ _, (0%float, Some "invalid syntax") |}
    "finala".

(** The events of five executions. The latest event of [scan_100] is
    the detection of a resource, which is no status event. *)
Definition fiveExecutions : list Event :=
  [mkEvent "ec2" "scan_100" "service_status" 100;
   mkEvent "ec2" "scan_200" "service_status" 205;
   mkEvent "ec2" "scan_300" "service_status" 300;
   mkEvent "rds" "scan_200" "service_status" 210;
   mkEvent "ec2" "scan_100" "resource_detected" 900;
   mkEvent "ec2" "scan_500" "service_status" 500;
   mkEvent "ec2" "scan_400" "service_status" 400;
   mkEvent "rds" "scan_400" "service_status" 390].

(** The resources that two executions detected, among other events. *)
Definition detections : list Event :=
  [mkEvent "ec2" "scan_100" "resource_detected" 101;
   mkEvent "ec2" "scan_100" "service_status" 100;
   mkEvent "rds" "scan_100" "resource_detected" 102;
   mkEvent "ec2" "scan_200" "resource_detected" 201;
   mkEvent "ec2" "scan_100" "resource_detected" 103].

(** ** The index *)

(** The byte of a double quote and of a tab. *)
Definition dquote : string := String (ascii_of_nat 34) EmptyString.
Definition tab : string := String (ascii_of_nat 9) EmptyString.
Definition newline : string := String (ascii_of_nat 10) EmptyString.

(** [tabs n ++ line], ended by a newline. *)
Definition mappingLine (n : nat) (line : string) : string :=
  String.concat EmptyString (replicate n tab) +:+ line +:+ newline.

(** A field of the mapping, typed as a keyword; [last] is for the one
    that no comma follows. *)
Definition keywordField (name : string) (last : bool) : string :=
  mappingLine 4 (dquote +:+ name +:+ dquote +:+ ":{")
  +:+ mappingLine 5 (dquote +:+ "type" +:+ dquote +:+ ":"
                     +:+ dquote +:+ "keyword" +:+ dquote)
  +:+ mappingLine 4 (if last then "}" else "},").

(** [indexMapping]: the default index mapping, byte for byte. *)
Definition indexMapping : string :=
  mappingLine 0 "{"
  +:+ mappingLine 2 (dquote +:+ "mappings" +:+ dquote +:+ ":{")
  +:+ mappingLine 3 (dquote +:+ "properties" +:+ dquote +:+ ":{")
  +:+ keywordField "ResourceName" false
  +:+ keywordField "ExecutionID" false
  +:+ keywordField "EventType" true
  +:+ mappingLine 3 "}"
  +:+ mappingLine 2 "}"
  +:+ tab +:+ "}".

(** The client's calls on indices, against a store in a state of [S].
    [IndexExists] is [sm.client.IndexExists(index).Do(ctx)], which asks
    and changes nothing; [CreateIndex] is
    [sm.client.CreateIndex(index).BodyString(body).Do(ctx)], with the
    state it leaves. *)
Record Indices (S : Type) := mkIndices {
  IndexExists : S → string → bool * error;
  CreateIndex : S → string → string → S * error
}.
Arguments IndexExists {S} _ _ _.
Arguments CreateIndex {S} _ _ _ _.

(** [createIndex]: the state of the store after the call. The index is
    created if the check succeeds and says that it is not there; the
    errors are logged. *)
Definition createIndex {S} (api : Indices S) (sm : StorageManager)
    (store : S) (index : string) : S :=
  let '(exists_, err) := IndexExists api store index in
  match err with
  | Some _ => store
  | None =>
      if exists_ then store
      else
        let '(store', _) := CreateIndex api store index indexMapping in
        store'
  end.

(** Modelled from the spec: what [createIndex] relies on in the store.
    [view] reads a state as its indices, each with the body it was
    created with. The check, when it succeeds, says whether the index is
    there; a creation that succeeds adds the index with the body that
    was sent and touches no other index; one that fails leaves the
    store as it was. *)
Definition index_store {S} (api : Indices S) (view : S → gmap string string)
  : Prop :=
  (∀ store index exists_,
     IndexExists api store index = (exists_, None) →
     exists_ = bool_decide (is_Some (view store !! index)))
  ∧ (∀ store index body store' err,
       CreateIndex api store index body = (store', err) →
       match err with
       | None => view store' = <[index := body]> (view store)
       | Some _ => store' = store
       end).

(** A store that is the set of its indices, with their mappings; it
    refuses an index that is there and a name that is empty. *)
Definition indexSet : Indices (gmap string string) :=
  {| IndexExists := λ store index, (bool_decide (is_Some (store !! index)), None);
     CreateIndex := λ store index body,
       if String.eqb index EmptyString then (store, Some "invalid_index_name_exception")
       else match store !! index with
            | Some _ => (store, Some "resource_already_exists_exception")
            | None => (<[index := body]> store, None)
            end |}.

(** ** Statements about the first loop of [GetSummary] *)

(** No two documents of a resource have the same [EventTime], unless
    they are the same document. *)
Definition tie_free (docs : list storage.Summary) : Prop :=
  ∀ d d', d ∈ docs → d' ∈ docs →
    storage.Summary_ResourceName d = storage.Summary_ResourceName d' →
    storage.Summary_EventTime d = storage.Summary_EventTime d' →
    d = d'.

(** A store without status documents. *)
Definition noReports : StorageManager :=
  mkStorageManager
    (tableClient (Some (result [] []), None) [] (λ _, unreachable)
       unreachable unreachable [] [] [] [])
    "finala".

(** ** Properties of [strings] and [strconv] *)

Lemma Split_not_nil s c : strings.Split s c ≠ [].
Proof.
  destruct s as [|a s]; simpl; [done|].
  destruct (Ascii.eqb a c); [done|]. by destruct (strings.Split s c).
Qed.

Lemma Split_free s c : free_of c s = true → strings.Split s c = [s].
Proof.
  induction s as [|a s IH]; simpl; [done|].
  destruct (Ascii.eqb a c); simpl; [done|].
  intros H. by rewrite IH.
Qed.

Lemma Split_app s1 s2 c :
  strings.Split (s1 +:+ String c s2) c
  = (strings.Split s1 c ++ strings.Split s2 c)%list.
Proof.
  induction s1 as [|a s1 IH]; simpl.
  - by rewrite Ascii.eqb_refl.
  - destruct (Ascii.eqb a c); simpl; [by rewrite IH|].
    rewrite IH. pose proof (Split_not_nil s1 c).
    by destruct (strings.Split s1 c).
Qed.

Lemma Join_cons_String a h t sep :
  strings.Join (String a h :: t) sep = String a (strings.Join (h :: t) sep).
Proof. by destruct t. Qed.

Lemma Join_Split s c : strings.Join (strings.Split s c) (String c EmptyString) = s.
Proof.
  induction s as [|a s IH]; simpl; [done|].
  destruct (Ascii.eqb_spec a c) as [->|Hne].
  - pose proof (Split_not_nil s c).
    destruct (strings.Split s c) as [|h t] eqn:E; [done|].
    simpl in *. by rewrite IH.
  - destruct (strings.Split s c) as [|h t] eqn:E; [by destruct (Split_not_nil s c)|].
    by rewrite Join_cons_String, IH.
Qed.

(** The segments of [name_ts]: those of [name], then [ts]. *)
Lemma Split_name_time name ts c :
  free_of c ts = true →
  strings.Split (name +:+ String c ts) c = (strings.Split name c ++ [ts])%list.
Proof. intros H. by rewrite Split_app, (Split_free ts). Qed.

(** ** [GetExecutions] *)

Lemma slice_to_init {A} (init : list A) (x : A) :
  slice_to (init ++ [x]) (Z.of_nat (length (init ++ [x])) - 1) = Ret init.
Proof.
  unfold slice_to. rewrite length_app. simpl.
  replace (Z.of_nat (length init + 1) - 1) with (Z.of_nat (length init)) by lia.
  rewrite Nat2Z.id, take_app_length.
  assert ((0 <=? Z.of_nat (length init)) = true) as -> by (apply Z.leb_le; lia).
  by assert ((Z.of_nat (length init) <=? Z.of_nat (length init + 1)) = true)
    as -> by (apply Z.leb_le; lia).
Qed.

Lemma index_last {A} (init : list A) (x : A) :
  index (init ++ [x]) (Z.of_nat (length (init ++ [x])) - 1) = Ret x.
Proof.
  unfold index. rewrite length_app. simpl.
  replace (Z.of_nat (length init + 1) - 1) with (Z.of_nat (length init)) by lia.
  rewrite Nat2Z.id, list_lookup_middle by done.
  by assert ((0 <=? Z.of_nat (length init)) = true) as -> by (apply Z.leb_le; lia).
Qed.

(** The inner loop's body never panics: it appends the record of the
    identifier, if it has one. *)
Lemma appendExecution_executionOf executions executionID :
  appendExecution executions executionID
  = Ret (executions ++ option_list (executionOf executionID))%list.
Proof.
  unfold appendExecution, executionOf.
  destruct (exists_last (Split_not_nil executionID "_")) as (init & x & ->).
  rewrite slice_to_init, index_last, removelast_last, last_last. simpl.
  destruct (strconv.ParseInt x); simpl; [done|]. by rewrite app_nil_r.
Qed.

Lemma inner_loop_executionOf keys : ∀ executions,
  go_foldl appendExecution executions keys
  = Ret (executions ++ omap executionOf keys)%list.
Proof.
  induction keys as [|k keys IH]; intros executions; simpl.
  - by rewrite app_nil_r.
  - rewrite appendExecution_executionOf. simpl. rewrite IH, <- app_assoc.
    by destruct (executionOf k).
Qed.

Lemma appendBucket_executionOf sm executions b :
  appendBucket sm executions b
  = Ret (executions ++ omap executionOf (bucketKeys sm b))%list.
Proof.
  unfold appendBucket, bucketKeys.
  destruct (unmarshalIDs _ _) as [ids e]. simpl. apply inner_loop_executionOf.
Qed.

Lemma outer_loop_executionOf sm buckets : ∀ executions,
  go_foldl (appendBucket sm) executions buckets
  = Ret (executions ++ omap executionOf (concat (bucketKeys sm <$> buckets)))%list.
Proof.
  induction buckets as [|b buckets IH]; intros executions; simpl.
  - by rewrite app_nil_r.
  - rewrite appendBucket_executionOf. simpl.
    by rewrite IH, omap_app, app_assoc.
Qed.

(** What [GetExecutions] returns when the search succeeds and the
    response has the aggregation: the records of the keys, in the order
    of the response. *)
Lemma GetExecutions_success sm queryLimit r resp :
  Do (client sm) (executionsRequest queryLimit) = (Some r, None) →
  Terms sm (elastic.SearchResult_Aggregations r) "orderedExecutionID" = Some resp →
  GetExecutions sm queryLimit
  = Ret (omap executionOf (executionKeys sm resp), None).
Proof.
  intros HDo HTerms. unfold GetExecutions. rewrite HDo. simpl. rewrite HTerms.
  by rewrite outer_loop_executionOf.
Qed.

(** [GetExecutions] never returns an error. *)
Lemma GetExecutions_nil_error sm queryLimit executions err :
  GetExecutions sm queryLimit = Ret (executions, err) → err = None.
Proof.
  unfold GetExecutions.
  destruct (Do _ _) as [[r|] [e|]]; simpl; try congruence.
  destruct (Terms _ _ _); [|congruence].
  rewrite outer_loop_executionOf. simpl. congruence.
Qed.

(** The record of [name_ts]. *)
Lemma executionOf_name_time name ts :
  free_of "_" ts = true →
  executionOf (name +:+ "_" +:+ ts)
  = match strconv.ParseInt ts with
    | inl t => Some (storage.mkExecutions (name +:+ "_" +:+ ts) name (time.Unix t 0))
    | inr _ => None
    end.
Proof.
  intros Hfree. unfold executionOf.
  change ("_" +:+ ts) with (String "_" ts).
  rewrite (Split_name_time name ts "_" Hfree), removelast_last, last_last.
  by rewrite (Join_Split name "_").
Qed.

(** The record of an identifier without delimiter. *)
Lemma executionOf_single_segment s :
  free_of "_" s = true →
  executionOf s
  = match strconv.ParseInt s with
    | inl t => Some (storage.mkExecutions s EmptyString (time.Unix t 0))
    | inr _ => None
    end.
Proof. intros Hfree. unfold executionOf. by rewrite (Split_free s "_" Hfree). Qed.

(** The identifiers of the records are among the keys, in their order. *)
Lemma executionOf_ID k e : executionOf k = Some e → storage.Executions_ID e = k.
Proof.
  unfold executionOf. destruct (strconv.ParseInt _); [|done].
  by intros [= <-].
Qed.




(** C5: every identifier that [GetExecutions] decodes is split on the
    underscore; the segment after the last one is read as a base-10
    integer, the time, and the segments before it, joined by
    underscores, are the name. So [nightly-scan_1700000000] gives the
    name [nightly-scan] and the time 1700000000, [a_b_c_42] gives
    [a_b_c] and 42, and [noTimestamp], which has no delimiter, gives no
    record: it is skipped, and the call returns the records of the other
    identifiers. *)
Theorem GetExecutions_decomposes_identifiers sm queryLimit r resp :
  Do (client sm) (executionsRequest queryLimit) = (Some r, None) →
  Terms sm (elastic.SearchResult_Aggregations r) "orderedExecutionID" = Some resp →
  GetExecutions sm queryLimit
  = Ret (omap executionOf (executionKeys sm resp), None)
  ∧ (∀ name ts, free_of "_" ts = true →
       executionOf (name +:+ "_" +:+ ts)
       = match strconv.ParseInt ts with
         | inl t => Some (storage.mkExecutions (name +:+ "_" +:+ ts) name
                            (time.mkTime t 0))
         | inr _ => None
         end)
  ∧ executionOf "nightly-scan_1700000000"
    = Some (storage.mkExecutions "nightly-scan_1700000000" "nightly-scan"
              (time.mkTime 1700000000 0))
  ∧ executionOf "a_b_c_42"
    = Some (storage.mkExecutions "a_b_c_42" "a_b_c" (time.mkTime 42 0))
  ∧ executionOf "noTimestamp" = None.
Proof.
  intros HDo HTerms. split; [by apply GetExecutions_success with r|].
  split; [|by vm_compute].
  intros name ts Hfree. by rewrite executionOf_name_time.
Qed.

Lemma GetExecutions_decomposes_identifiers_witness :
  GetExecutions
    (executionsStore ["nightly-scan_1700000000"; "noTimestamp"; "a_b_c_42"]) 10
  = Ret ([storage.mkExecutions "nightly-scan_1700000000" "nightly-scan"
            (time.mkTime 1700000000 0);
          storage.mkExecutions "a_b_c_42" "a_b_c" (time.mkTime 42 0)],
         None).
Proof.
  edestruct (GetExecutions_decomposes_identifiers
               (executionsStore ["nightly-scan_1700000000"; "noTimestamp"; "a_b_c_42"])
               10) as [H _].
  - reflexivity.
  - reflexivity.
  - rewrite H. reflexivity.
Defined.

(** C10: an identifier of a single segment, one without underscore,
    whose whole text is a base-10 integer, is not skipped: among the
    records that [GetExecutions] returns is one with this identifier,
    the empty name, and the integer as the seconds of its time. *)
Theorem GetExecutions_keeps_bare_timestamp sm queryLimit r resp s t :
  Do (client sm) (executionsRequest queryLimit) = (Some r, None) →
  Terms sm (elastic.SearchResult_Aggregations r) "orderedExecutionID" = Some resp →
  s ∈ executionKeys sm resp →
  free_of "_" s = true →
  strconv.ParseInt s = inl t →
  ∃ executions,
    GetExecutions sm queryLimit = Ret (executions, None)
    ∧ storage.mkExecutions s EmptyString (time.mkTime t 0) ∈ executions.
Proof.
  intros HDo HTerms Hin Hfree Hint.
  eexists. split; [by apply GetExecutions_success with r|].
  apply list_elem_of_omap. exists s. split; [done|].
  by rewrite executionOf_single_segment, Hint.
Qed.

Lemma GetExecutions_keeps_bare_timestamp_witness :
  ∃ executions,
    GetExecutions (executionsStore ["scan_1700000500"; "1700000000"]) 5
    = Ret (executions, None)
    ∧ storage.mkExecutions "1700000000" EmptyString (time.mkTime 1700000000 0)
      ∈ executions.
Proof.
  eapply (GetExecutions_keeps_bare_timestamp
            (executionsStore ["scan_1700000500"; "1700000000"]) 5).
  - reflexivity.
  - reflexivity.
  - vm_compute. apply list_elem_of_further, list_elem_of_here.
  - reflexivity.
  - reflexivity.
Defined.

(** What [GetExecutions] does when the search fails: the entry it logs
    reads a field of the search result, and the client returns no
    result with an error. *)
Lemma GetExecutions_search_fails sm queryLimit e :
  Do (client sm) (executionsRequest queryLimit) = (None, Some e) →
  GetExecutions sm queryLimit = Panic nil_dereference.
Proof. intros HDo. unfold GetExecutions. by rewrite HDo. Qed.

(** With a client that handed out a result next to the error, the call
    would return no execution and no error. *)
Lemma GetExecutions_search_fails_with_result sm queryLimit r e :
  Do (client sm) (executionsRequest queryLimit) = (Some r, Some e) →
  GetExecutions sm queryLimit = Ret ([], None).
Proof. intros HDo. unfold GetExecutions. by rewrite HDo. Qed.

(** A response without the outer aggregation: no execution, no error. *)
Lemma GetExecutions_aggregation_absent sm queryLimit r :
  Do (client sm) (executionsRequest queryLimit) = (Some r, None) →
  elastic.SearchResult_Aggregations r !! "orderedExecutionID" = None →
  GetExecutions sm queryLimit = Ret ([], None).
Proof.
  intros HDo Habsent. unfold GetExecutions. rewrite HDo. simpl.
  unfold Terms. by rewrite Habsent.
Qed.

(** C4, at a store that cannot be reached: the client returns a nil
    result and the error; [GetExecutions] reads [TookInMillis] of that
    result for its log entry, and panics where the claim has it return
    an empty sequence and a nil error. With the aggregation absent from
    a response it does return them. *)
Theorem GetExecutions_panics_when_search_fails :
  Do (client storeDown) (executionsRequest 3) = (None, Some "connection refused")
  ∧ GetExecutions storeDown 3 = Panic nil_dereference
  ∧ GetExecutions noExecutionsAggregation 3 = Ret ([], None).
Proof. by vm_compute. Qed.

(** ** The store that runs the aggregation *)

Lemma decodeTexts_encodeText text rest :
  decodeTexts (encodeText text rest) = text :: decodeTexts rest.
Proof.
  induction text as [|c text IH]; [done|].
  cbn [encodeText].
  destruct (Ascii.eqb c escapeByte) eqn:Hescape; cbn [orb].
  - cbn [decodeTexts]. change (Ascii.eqb escapeByte endByte) with false.
    change (Ascii.eqb escapeByte escapeByte) with true. cbv iota.
    by rewrite IH.
  - destruct (Ascii.eqb c endByte) eqn:Hend.
    + cbn [decodeTexts]. change (Ascii.eqb escapeByte endByte) with false.
      change (Ascii.eqb escapeByte escapeByte) with true. cbv iota.
      by rewrite IH.
    + cbn [decodeTexts]. rewrite Hend, Hescape. by rewrite IH.
Qed.

Lemma decodeTexts_encodeTexts texts : decodeTexts (encodeTexts texts) = texts.
Proof.
  induction texts as [|text texts IH]; [done|].
  unfold encodeTexts in *. cbn [foldr]. by rewrite decodeTexts_encodeText, IH.
Qed.


(** ** The order of [GetExecutions] *)





#[local] Instance bucket_before_trans asc value :
  Transitive (bucket_before asc value).
Proof.
  intros a b c. unfold bucket_before, value_before.
  destruct (value a), (value b), (value c), asc; try done;
    rewrite !Z.leb_le; lia.
Qed.

#[local] Instance bucket_before_total asc value :
  Total (bucket_before asc value).
Proof.
  intros a b. unfold bucket_before, value_before.
  destruct (value a), (value b), asc; auto; rewrite !Z.leb_le; lia.
Qed.





(** The three most recent of the five executions of [fiveExecutions],
    by their status events. *)
Example GetExecutions_three_of_five :
  GetExecutions (engineStore fiveExecutions) 3
  = Ret ([storage.mkExecutions "scan_500" "scan" (time.mkTime 500 0);
          storage.mkExecutions "scan_400" "scan" (time.mkTime 400 0);
          storage.mkExecutions "scan_300" "scan" (time.mkTime 300 0)], None).
Proof. vm_compute. reflexivity. Qed.

(** ** [GetResources] *)

(** The loop appends one map for every hit, decoded or not. *)
Lemma GetResources_loop_length sm hits : ∀ resources,
  length (foldl (appendResource sm) resources hits)
  = (length resources + length hits)%nat.
Proof.
  induction hits as [|hit hits IH]; intros resources; simpl; [lia|].
  rewrite IH. unfold appendResource.
  destruct (unmarshalRow _ _ _). rewrite length_app. simpl. lia.
Qed.

Lemma GetResources_one_map_per_hit sm resourceType executionID r :
  Do (client sm) (resourcesRequest resourceType executionID) = (Some r, None) →
  ∃ resources,
    GetResources sm resourceType executionID = Ret (resources, None)
    ∧ length resources
      = length (elastic.SearchHits_Hits (elastic.SearchResult_Hits r)).
Proof.
  intros HDo. unfold GetResources. rewrite HDo. simpl.
  eexists. split; [done|]. by rewrite GetResources_loop_length.
Qed.

(** C7, at a store with two hits of which the second does not decode:
    [GetResources] logs the error and appends the map all the same, an
    empty one, where the claim has the document dropped. The call does
    not fail. *)
Theorem GetResources_keeps_undecoded_hit :
  unmarshalRow (client brokenHit) "{id:" ∅ = (∅, Some "invalid character")
  ∧ GetResources brokenHit "ec2" "run_1"
    = Ret ([ {[ "id" := JString "i-1" ]}; ∅ ], None).
Proof. by vm_compute. Qed.

(** ** More on [GetResources] *)

(** The query of [resourcesRequest] keeps the detected resources of the
    type in the execution. *)
Lemma matches_resources_query resourceType executionID e :
  matches
    (elastic.BoolQuery
       [elastic.MatchQuery "EventType" "resource_detected";
        elastic.MatchQuery "ExecutionID" executionID;
        elastic.MatchQuery "ResourceName" resourceType] [] []) e = true
  ↔ Event_EventType e = "resource_detected"
    ∧ Event_ExecutionID e = executionID
    ∧ Event_ResourceName e = resourceType.
Proof.
  cbn [matches].
  change (fieldText "EventType" e) with (Some (Event_EventType e)).
  change (fieldText "ExecutionID" e) with (Some (Event_ExecutionID e)).
  change (fieldText "ResourceName" e) with (Some (Event_ResourceName e)).
  rewrite !andb_true_iff, !String.eqb_eq. tauto.
Qed.

Lemma GetResources_loop_rows sm (row : Event → gmap string JSON) hits events :
  Forall2
    (λ hit e,
       unmarshalRow (client sm) (elastic.SearchHit_Source hit) ∅ = (row e, None))
    hits events →
  ∀ resources,
    foldl (appendResource sm) resources hits = (resources ++ (row <$> events))%list.
Proof.
  induction 1 as [|hit e hits events Hhit _ IH]; intros resources; simpl;
    [by rewrite app_nil_r|].
  rewrite IH. unfold appendResource. rewrite Hhit. by rewrite <- app_assoc.
Qed.

(** X5: on a store that answers its searches, [GetResources] returns
    the documents of the [resource_detected] events of the resource type
    in the execution, and of no other event: the first hundred of them
    as the store ranks them, all of them when they are no more, each
    decoded from its source, and a nil error. *)
Theorem GetResources_returns_detected_resources sm docs row
    resourceType executionID :
  answers_search sm docs row →
  GetResources sm resourceType executionID
  = Ret (row <$>
           take 100
             (filter (λ e, Event_EventType e = "resource_detected"
                           ∧ Event_ExecutionID e = executionID
                           ∧ Event_ResourceName e = resourceType) docs),
         None).
Proof.
  intros Hstore.
  destruct (Hstore
              (elastic.BoolQuery
                 [elastic.MatchQuery "EventType" "resource_detected";
                  elastic.MatchQuery "ExecutionID" executionID;
                  elastic.MatchQuery "ResourceName" resourceType] [] [])
              100 true) as (r & HDo & Hhits); [done|].
  change (elastic.mkSearchRequest _ _ _ _)
    with (resourcesRequest resourceType executionID) in HDo.
  unfold GetResources. rewrite HDo. cbn [deref go_bind].
  rewrite (GetResources_loop_rows sm row _ _ Hhits). cbn [app].
  unfold searchEvents. change (Z.to_nat 100) with 100%nat.
  do 4 f_equal. apply list_filter_iff. intros e.
  apply matches_resources_query.
Qed.

(** [engineStore docs] answers the searches as a store that holds
    [docs]. *)
Lemma engineStore_answers_search docs :
  answers_search (engineStore docs) docs rowOf.
Proof.
  intros q size pretty Hsize. eexists. split.
  - cbn [engineStore client Do]. apply Z.leb_le in Hsize as ->. reflexivity.
  - cbn [elastic.SearchResult_Hits elastic.SearchHits_Hits].
    apply Forall2_fmap_l, Forall_Forall2_diag, Forall_forall. intros e _.
    unfold compose.
    cbn [engineStore client unmarshalRow elastic.SearchHit_Source].
    unfold sourceOf. rewrite decodeTexts_encodeTexts.
    by rewrite (right_id ∅ (∪)).
Qed.

Lemma GetResources_returns_detected_resources_witness :
  GetResources (engineStore detections) "ec2" "scan_100"
  = Ret (rowOf <$>
           take 100
             (filter (λ e, Event_EventType e = "resource_detected"
                           ∧ Event_ExecutionID e = "scan_100"
                           ∧ Event_ResourceName e = "ec2") detections),
         None).
Proof.
  apply (GetResources_returns_detected_resources (engineStore detections)
           detections rowOf "ec2" "scan_100").
  apply engineStore_answers_search.
Defined.

(** The two detections of [ec2] in [scan_100], of the five events. *)
Example GetResources_two_of_five :
  GetResources (engineStore detections) "ec2" "scan_100"
  = Ret ([rowOf (mkEvent "ec2" "scan_100" "resource_detected" 101);
          rowOf (mkEvent "ec2" "scan_100" "resource_detected" 103)], None).
Proof. vm_compute. reflexivity. Qed.

(** ** [GetSummary]: the first loop *)

Lemma statusDocs_snoc items item :
  statusDocs (items ++ [item]) = (statusDocs items ++ option_list item)%list.
Proof. unfold statusDocs. rewrite omap_app. simpl. by destruct item. Qed.

Lemma latest_among_older docs name latest d :
  latest_among docs name latest →
  storage.Summary_EventTime d < storage.Summary_EventTime latest →
  latest_among (docs ++ [d]) name latest.
Proof.
  intros (Hin & Hname & Hmax) Hlt. split; [set_solver|]. split; [done|].
  intros d' [Hd'| ->%list_elem_of_singleton]%elem_of_app Hn; [auto|lia].
Qed.

Lemma latest_among_newer docs name latest d :
  latest_among docs name latest →
  storage.Summary_ResourceName d = name →
  storage.Summary_EventTime latest ≤ storage.Summary_EventTime d →
  latest_among (docs ++ [d]) name d.
Proof.
  intros (Hin & Hname & Hmax) Hd Hle. split; [set_solver|]. split; [done|].
  intros d' [Hd'| ->%list_elem_of_singleton]%elem_of_app Hn; [|lia].
  specialize (Hmax d' Hd' Hn). lia.
Qed.

Lemma latest_among_other docs name latest d :
  latest_among docs name latest →
  storage.Summary_ResourceName d ≠ name →
  latest_among (docs ++ [d]) name latest.
Proof.
  intros (Hin & Hname & Hmax) Hd. split; [set_solver|]. split; [done|].
  intros d' [Hd'| ->%list_elem_of_singleton]%elem_of_app Hn; [auto|done].
Qed.

(** After the first loop, the row of a resource is that of a latest
    document of the resource, and a resource without a row has no
    document. *)
Lemma statusSummary_latest items name :
  match statusSummary items !! name with
  | Some row =>
      ∃ latest, latest_among (statusDocs items) name latest
                ∧ row = statusRow latest
  | None =>
      ∀ d, d ∈ statusDocs items → storage.Summary_ResourceName d ≠ name
  end.
Proof.
  unfold statusSummary.
  induction items as [|item items IH] using rev_ind; simpl.
  { rewrite lookup_empty. intros d Hd. by apply elem_of_nil in Hd. }
  rewrite foldl_snoc, statusDocs_snoc.
  destruct item as [d|]; [|simpl; by rewrite app_nil_r].
  cbn [option_list].
  set (summary := foldl mergeStatus ∅ items) in *.
  destruct (decide (storage.Summary_ResourceName d = name)) as [Heq|Hne].
  - unfold mergeStatus. cbv zeta. rewrite Heq.
    destruct (summary !! name) as [val|] eqn:Hval.
    + destruct IH as (latest & Hlatest & ->). simpl.
      destruct (Z.ltb_spec (storage.Summary_EventTime d)
                  (storage.Summary_EventTime latest)) as [Hlt|Hge].
      * rewrite Hval. exists latest. split; [|done].
        by apply latest_among_older.
      * rewrite lookup_insert_eq. exists d. split; [|done].
        by apply latest_among_newer with latest.
    + rewrite lookup_insert_eq. exists d. split; [|done].
      split; [set_solver|]. split; [done|].
      intros d' [Hd'| ->%list_elem_of_singleton]%elem_of_app Hn; [|lia].
      by destruct (IH d' Hd').
  - assert (mergeStatus summary (Some d) !! name = summary !! name) as ->.
    { unfold mergeStatus. cbv zeta.
      destruct (summary !! storage.Summary_ResourceName d) as [val|].
      - destruct (_ <? _); [done|].
        by rewrite lookup_insert_ne, lookup_delete_ne.
      - by rewrite lookup_insert_ne. }
    destruct (summary !! name) as [row|].
    + destruct IH as (latest & Hlatest & ->). exists latest. split; [|done].
      by apply latest_among_other.
    + intros d' [Hd'| ->%list_elem_of_singleton]%elem_of_app; [auto|done].
Qed.

(** Every document has a row after the first loop. *)
Lemma statusSummary_has_row items d :
  d ∈ statusDocs items →
  is_Some (statusSummary items !! storage.Summary_ResourceName d).
Proof.
  intros Hd. pose proof (statusSummary_latest items (storage.Summary_ResourceName d)) as H.
  destruct (statusSummary items !! _); [done|]. by destruct (H d Hd).
Qed.

(** ** [GetSummary]: the second loop *)

(** [getResourceSummaryDetails] panics in one way only: on the result
    pointer. *)
Lemma getResourceSummaryDetails_panic sm executionID filters msg :
  getResourceSummaryDetails sm executionID filters = Panic msg →
  msg = nil_dereference.
Proof.
  unfold getResourceSummaryDetails.
  destruct (Do _ _) as [[r|] [e|]]; simpl; try congruence.
  destruct (Terms _ _ _) as [resp|]; [|congruence].
  destruct (_ !! "value"); congruence.
Qed.

(** The cost search fails and the client returns no result: the call
    panics. *)
Lemma getResourceSummaryDetails_search_fails sm executionID filters e :
  Do (client sm) (detailsRequest sm executionID filters) = (None, Some e) →
  getResourceSummaryDetails sm executionID filters = Panic nil_dereference.
Proof. intros HDo. unfold getResourceSummaryDetails. by rewrite HDo. Qed.

(** With a client that handed out a result next to the error, the call
    would return the zero values and the error. *)
Lemma getResourceSummaryDetails_search_fails_with_result sm executionID filters r e :
  Do (client sm) (detailsRequest sm executionID filters) = (Some r, Some e) →
  getResourceSummaryDetails sm executionID filters = Ret (0%float, 0, Some e).
Proof. intros HDo. unfold getResourceSummaryDetails. by rewrite HDo. Qed.

(** A response without the sum, or a sum without its value: the zero
    values, and no error. *)
Lemma getResourceSummaryDetails_no_sum sm executionID filters r :
  Do (client sm) (detailsRequest sm executionID filters) = (Some r, None) →
  Terms sm (elastic.SearchResult_Aggregations r) "sum" = None
  ∨ (∃ resp, Terms sm (elastic.SearchResult_Aggregations r) "sum" = Some resp
             ∧ elastic.AggregationBucketKeyItems_Aggregations resp !! "value" = None) →
  getResourceSummaryDetails sm executionID filters = Ret (0%float, 0, None).
Proof.
  intros HDo Hno. unfold getResourceSummaryDetails. rewrite HDo. simpl.
  destruct Hno as [->|(resp & -> & ->)]; done.
Qed.

Lemma filtersAfter_cons {V} (filters : gmap string string)
    (entry : string * V) (entries : list (string * V)) :
  filtersAfter filters (entry :: entries)
  = filtersAfter (<["ResourceName" := entry.1]> filters) entries.
Proof.
  unfold filtersAfter. destruct entries as [|e' entries]; [done|].
  rewrite last_cons_cons.
  destruct (last (e' :: entries)) as [l|] eqn:E; [by rewrite insert_insert_eq|].
  by apply last_None in E.
Qed.

(** The second loop, split into its effect on the summary and its
    effect on the caller's filters: whatever the filters held under
    [ResourceName], the search of a resource is made with its name. *)
Lemma second_loop_split sm executionID filters entries : ∀ summary current,
  delete "ResourceName" current = delete "ResourceName" filters →
  go_foldl (addDetails sm executionID) (summary, Some current) entries
  = (summary' ←! go_foldl (addDetailsTo sm executionID filters) summary entries;
     Ret (summary', Some (filtersAfter current entries))).
Proof.
  induction entries as [|[name data] entries IH]; intros summary current Hcur;
    [done|].
  rewrite filtersAfter_cons.
  cbn [go_foldl]. unfold addDetails at 1, addDetailsTo at 1, detailsOf.
  cbn [map_assign go_bind fst snd].
  assert (<["ResourceName" := name]> current = <["ResourceName" := name]> filters)
    as Hsame.
  { by rewrite <- (insert_delete_eq current), <- (insert_delete_eq filters), Hcur. }
  rewrite <- Hsame.
  destruct (getResourceSummaryDetails sm executionID _) as [[[t c] [e|]]|msg];
    cbn [go_bind fst snd detailedRow]; [| |done].
  - apply IH. by rewrite delete_insert_eq.
  - apply IH. by rewrite delete_insert_eq.
Qed.

(** A nil filters map: the first assignment panics. *)
Lemma second_loop_nil_filters sm executionID summary entries :
  go_foldl (addDetails sm executionID) (summary, None) entries
  = match entries with
    | [] => Ret (summary, None)
    | _ :: _ => Panic nil_map_assignment
    end.
Proof. destruct entries as [|[name data] entries]; done. Qed.

Lemma addDetailsTo_panic sm executionID filters summary entry msg :
  addDetailsTo sm executionID filters summary entry = Panic msg →
  msg = nil_dereference.
Proof.
  unfold addDetailsTo, detailsOf.
  destruct (getResourceSummaryDetails _ _ _) as [[[t c] [e|]]|msg'] eqn:E;
    simpl; try congruence.
  intros [= <-]. by apply getResourceSummaryDetails_panic in E.
Qed.

(** The visits of two resources can be exchanged. *)
Lemma addDetailsTo_exchange sm executionID filters summary x y :
  x.1 ≠ y.1 →
  (summary' ←! addDetailsTo sm executionID filters summary x;
   addDetailsTo sm executionID filters summary' y)
  = (summary' ←! addDetailsTo sm executionID filters summary y;
     addDetailsTo sm executionID filters summary' x).
Proof.
  intros Hne. unfold addDetailsTo.
  destruct (detailsOf sm executionID filters x.1) as [[[t1 c1] e1]|m1] eqn:E1;
  destruct (detailsOf sm executionID filters y.1) as [[[t2 c2] e2]|m2] eqn:E2;
    cbn [go_bind fst snd]; rewrite ?E1, ?E2; cbn [go_bind fst snd].
  - destruct e1, e2; cbn [go_bind]; rewrite ?E1, ?E2; cbn [go_bind fst snd];
      try done.
    by rewrite insert_insert_ne.
  - by destruct e1; cbn [go_bind]; rewrite ?E2.
  - by destruct e2; cbn [go_bind]; rewrite ?E1.
  - apply getResourceSummaryDetails_panic in E1, E2. congruence.
Qed.

(** The summary after the second loop does not depend on the order in
    which the runtime visits the resources. *)
Lemma second_loop_order sm executionID filters entries entries' :
  entries ≡ₚ entries' →
  NoDup entries.*1 →
  ∀ summary,
    go_foldl (addDetailsTo sm executionID filters) summary entries
    = go_foldl (addDetailsTo sm executionID filters) summary entries'.
Proof.
  induction 1 as [|x l l' Hperm IH|x y l|l l' l'' Hperm IH Hperm' IH'];
    intros Hnodup summary.
  - done.
  - cbn [go_foldl]. apply NoDup_cons in Hnodup as [_ Hnodup].
    destruct (addDetailsTo _ _ _ _ _); cbn [go_bind]; auto.
  - cbn [go_foldl].
    assert (y.1 ≠ x.1) as Hne.
    { cbn in Hnodup. apply NoDup_cons in Hnodup as [Hy _]. set_solver. }
    pose proof (addDetailsTo_exchange sm executionID filters summary y x Hne) as Hx.
    destruct (addDetailsTo sm executionID filters summary y) as [s1|m1];
    destruct (addDetailsTo sm executionID filters summary x) as [s2|m2];
      cbn [go_bind] in *.
    + destruct (addDetailsTo sm executionID filters s1 x) as [s12|];
      destruct (addDetailsTo sm executionID filters s2 y) as [s21|];
        cbn [go_bind]; congruence.
    + destruct (addDetailsTo sm executionID filters s1 x); cbn [go_bind]; congruence.
    + destruct (addDetailsTo sm executionID filters s2 y); cbn [go_bind]; congruence.
    + done.
  - rewrite IH by done. apply IH'.
    by rewrite <- (fmap_Permutation fst l l' Hperm).
Qed.

(** A resource that the second loop does not visit keeps its row. *)
Lemma second_loop_not_visited sm executionID filters entries name :
  name ∉ entries.*1 →
  ∀ summary summary',
    go_foldl (addDetailsTo sm executionID filters) summary entries = Ret summary' →
    summary' !! name = summary !! name.
Proof.
  induction entries as [|[k v] entries IH]; intros Hnot summary summary' Hloop.
  - by injection Hloop as <-.
  - cbn [go_foldl] in Hloop. cbn in Hnot.
    apply not_elem_of_cons in Hnot as [Hne Hnot].
    unfold addDetailsTo at 1 in Hloop.
    destruct (detailsOf sm executionID filters _) as [[[t c] [e|]]|m];
      cbn [go_bind fst snd] in Hloop; [| |done].
    + by apply (IH Hnot) in Hloop.
    + apply (IH Hnot) in Hloop. by rewrite Hloop, lookup_insert_ne.
Qed.

(** A resource that the second loop visits, once: its cost search
    returned, and its row is the visited one with the spend and count of
    the answer, or, when the search failed, what it was. *)
Lemma second_loop_visited sm executionID filters entries name data :
  (name, data) ∈ entries →
  NoDup entries.*1 →
  ∀ summary summary',
    go_foldl (addDetailsTo sm executionID filters) summary entries = Ret summary' →
    ∃ details,
      detailsOf sm executionID filters name = Ret details
      ∧ summary' !! name
        = match details.2 with
          | None => Some (detailedRow data details)
          | Some _ => summary !! name
          end.
Proof.
  induction entries as [|[k v] entries IH]; intros Hin Hnodup summary summary' Hloop.
  { by apply elem_of_nil in Hin. }
  cbn in Hnodup. apply NoDup_cons in Hnodup as [Hk Hnodup].
  cbn [go_foldl] in Hloop. unfold addDetailsTo at 1 in Hloop. cbn [fst snd] in Hloop.
  apply elem_of_cons in Hin as [[= -> ->]|Hin].
  - destruct (detailsOf sm executionID filters k) as [[[t c] [e|]]|m] eqn:E;
      cbn [go_bind fst snd] in Hloop; [| |done].
    + eexists. split; [done|]. cbn [snd].
      by apply (second_loop_not_visited _ _ _ _ _ Hk) in Hloop.
    + eexists. split; [done|]. cbn [snd].
      apply (second_loop_not_visited _ _ _ _ _ Hk) in Hloop.
      by rewrite Hloop, lookup_insert_eq.
  - assert (name ≠ k) as Hne.
    { intros ->. apply Hk. apply list_elem_of_fmap. by exists (k, data). }
    destruct (detailsOf sm executionID filters k) as [[[t c] [e|]]|m] eqn:E;
      cbn [go_bind fst snd] in Hloop; [| |done].
    + by apply (IH Hin Hnodup) in Hloop.
    + apply (IH Hin Hnodup) in Hloop as (details & Hd & Hrow).
      exists details. split; [done|].
      by rewrite lookup_insert_ne in Hrow.
Qed.

(** ** [GetSummary] *)

Lemma range_ok_NoDup {V} (range : gmap string V → list (string * V)) m :
  range_ok range → NoDup (range m).*1.
Proof.
  intros Hok. rewrite (fmap_Permutation fst _ _ (Hok m)).
  apply NoDup_fst_map_to_list.
Qed.

Lemma range_ok_elem_of {V} (range : gmap string V → list (string * V)) m k v :
  range_ok range → (k, v) ∈ range m ↔ m !! k = Some v.
Proof. intros Hok. rewrite (Hok m). apply elem_of_map_to_list. Qed.

Lemma range_ok_nil {V} (range : gmap string V → list (string * V)) m :
  range_ok range → range m = [] ↔ m = ∅.
Proof.
  intros Hok. rewrite <- map_to_list_empty_iff. split; intros H.
  - apply Permutation_nil_r. by rewrite <- H, (Hok m).
  - apply Permutation_nil_r. by rewrite <- H, (Hok m).
Qed.

(** The status search fails: the empty summary and the error, and the
    filters untouched. *)
Lemma GetSummary_status_fails sm range executionID filters res e :
  Do (client sm) (statusRequest executionID) = (res, Some e) →
  GetSummary sm range executionID filters = Ret (∅, Some e, filters).
Proof. intros HDo. unfold GetSummary. by rewrite HDo. Qed.

(** [GetSummary] after a status search that succeeded, on filters that
    are a map. *)
Lemma GetSummary_unfold sm range executionID filters r :
  Do (client sm) (statusRequest executionID) = (Some r, None) →
  GetSummary sm range executionID (Some filters)
  = (summary ←! go_foldl (addDetailsTo sm executionID filters)
                  (statusSummary (Each (client sm) r))
                  (range (statusSummary (Each (client sm) r)));
     Ret (summary, None,
          Some (filtersAfter filters (range (statusSummary (Each (client sm) r)))))).
Proof.
  intros HDo. unfold GetSummary. rewrite HDo. cbn [deref go_bind].
  fold (statusSummary (Each (client sm) r)).
  rewrite (second_loop_split sm executionID filters) by done.
  by destruct (go_foldl _ _ _).
Qed.

(** On a nil filters map [GetSummary] returns only if there is no row. *)
Lemma GetSummary_nil_filters sm range executionID r :
  Do (client sm) (statusRequest executionID) = (Some r, None) →
  GetSummary sm range executionID None
  = match range (statusSummary (Each (client sm) r)) with
    | [] => Ret (statusSummary (Each (client sm) r), None, None)
    | _ :: _ => Panic nil_map_assignment
    end.
Proof.
  intros HDo. unfold GetSummary. rewrite HDo. cbn [deref go_bind].
  fold (statusSummary (Each (client sm) r)).
  rewrite second_loop_nil_filters. by destruct (range _).
Qed.

(** The rows that [GetSummary] returns after a status search that
    succeeded: for every resource with a status document, the row of the
    first loop with the answer to its cost search; no other row; no
    error. *)
Lemma GetSummary_rows sm range executionID filters r summary err filters' :
  range_ok range →
  Do (client sm) (statusRequest executionID) = (Some r, None) →
  GetSummary sm range executionID (Some filters) = Ret (summary, err, filters') →
  err = None
  ∧ filters'
    = Some (filtersAfter filters (range (statusSummary (Each (client sm) r))))
  ∧ ∀ name,
      match statusSummary (Each (client sm) r) !! name with
      | Some row =>
          ∃ details,
            detailsOf sm executionID filters name = Ret details
            ∧ summary !! name = Some (detailedRow row details)
      | None => summary !! name = None
      end.
Proof.
  intros Hok HDo Hret. rewrite (GetSummary_unfold _ _ _ _ r HDo) in Hret.
  set (summary0 := statusSummary (Each (client sm) r)) in *.
  destruct (go_foldl _ summary0 _) as [s|m] eqn:Hloop; [|done].
  cbn [go_bind] in Hret. injection Hret as <- <- <-.
  split; [done|]. split; [done|]. intros name.
  destruct (summary0 !! name) as [row|] eqn:Hrow.
  - apply (range_ok_elem_of range) in Hrow; [|done].
    destruct (second_loop_visited _ _ _ _ _ _ Hrow (range_ok_NoDup range _ Hok)
                _ _ Hloop) as (details & Hd & Hs).
    exists details. split; [done|]. rewrite Hs.
    apply (range_ok_elem_of range) in Hrow; [|done].
    destruct details as [[t c] [e|]]; by cbn.
  - rewrite <- Hrow.
    apply (second_loop_not_visited sm executionID filters (range summary0));
      [|done].
    intros ([k v] & -> & Hin)%list_elem_of_fmap.
    apply (range_ok_elem_of range) in Hin; [|done]. cbn in Hrow. congruence.
Qed.

(** The answer to the cost search leaves the status of a row alone. *)
Lemma detailedRow_status row details :
  storage.CollectorsSummary_ResourceName (detailedRow row details)
  = storage.CollectorsSummary_ResourceName row
  ∧ storage.CollectorsSummary_EventTime (detailedRow row details)
    = storage.CollectorsSummary_EventTime row
  ∧ storage.CollectorsSummary_Status (detailedRow row details)
    = storage.CollectorsSummary_Status row
  ∧ storage.CollectorsSummary_ErrorMessage (detailedRow row details)
    = storage.CollectorsSummary_ErrorMessage row.
Proof. by destruct details as [[t c] [e|]]. Qed.

(** C1: for the status documents that the store returns for an
    execution, and every resource name among them, the row that
    [GetSummary] returns for that name carries the [EventTime], the
    [Status] and the [ErrorMessage] of a document of that name whose
    [EventTime] is maximal among the documents of that name. *)
Theorem GetSummary_keeps_latest_status
    sm range executionID filters r summary err filters' d :
  range_ok range →
  Do (client sm) (statusRequest executionID) = (Some r, None) →
  GetSummary sm range executionID filters = Ret (summary, err, filters') →
  d ∈ statusDocs (Each (client sm) r) →
  ∃ row latest,
    summary !! storage.Summary_ResourceName d = Some row
    ∧ latest_among (statusDocs (Each (client sm) r))
        (storage.Summary_ResourceName d) latest
    ∧ storage.CollectorsSummary_EventTime row = storage.Summary_EventTime latest
    ∧ storage.CollectorsSummary_Status row
      = storage.SummaryData_Status (storage.Summary_Data latest)
    ∧ storage.CollectorsSummary_ErrorMessage row
      = storage.SummaryData_ErrorMessage (storage.Summary_Data latest).
Proof.
  intros Hok HDo Hret Hd.
  pose proof (statusSummary_has_row _ d Hd) as [row0 Hrow0].
  pose proof (statusSummary_latest (Each (client sm) r)
                (storage.Summary_ResourceName d)) as Hlatest.
  rewrite Hrow0 in Hlatest. destruct Hlatest as (latest & Hlatest & ->).
  destruct filters as [f|].
  - destruct (GetSummary_rows _ _ _ _ _ _ _ _ Hok HDo Hret) as (_ & _ & Hrows).
    specialize (Hrows (storage.Summary_ResourceName d)). rewrite Hrow0 in Hrows.
    destruct Hrows as (details & _ & Hrow).
    exists (detailedRow (statusRow latest) details), latest.
    destruct (detailedRow_status (statusRow latest) details) as (_ & -> & -> & ->).
    done.
  - rewrite (GetSummary_nil_filters _ _ _ r HDo) in Hret.
    destruct (range _) as [|entry entries] eqn:Hrange; [|done].
    apply (range_ok_nil range) in Hrange; [|done].
    rewrite Hrange, lookup_empty in Hrow0. done.
Qed.

(** Reports at 10, 30 and 20 for one resource: the status kept is that
    of 30. *)
Lemma GetSummary_keeps_latest_status_witness :
  GetSummary threeReports map_to_list "run_1" (Some ∅)
  = Ret ({[ "ec2" := storage.mkCollectorsSummary "ec2" 2 12.5%float 2 "finished" 30 ]},
         None, Some {[ "ResourceName" := "ec2" ]})
  ∧ ∃ row latest,
      ({[ "ec2" := storage.mkCollectorsSummary "ec2" 2 12.5%float 2 "finished" 30 ]}
         : gmap string storage.CollectorsSummary) !! "ec2" = Some row
      ∧ latest_among
          [statusDoc "ec2" 10 0 "fetching"; statusDoc "ec2" 30 2 "finished";
           statusDoc "ec2" 20 1 "throttled"] "ec2" latest
      ∧ storage.CollectorsSummary_EventTime row = storage.Summary_EventTime latest
      ∧ storage.CollectorsSummary_Status row
        = storage.SummaryData_Status (storage.Summary_Data latest)
      ∧ storage.CollectorsSummary_ErrorMessage row
        = storage.SummaryData_ErrorMessage (storage.Summary_Data latest)
      ∧ storage.Summary_EventTime latest = 30.
Proof.
  assert (GetSummary threeReports map_to_list "run_1" (Some ∅)
          = Ret ({[ "ec2" := storage.mkCollectorsSummary "ec2" 2 12.5%float 2 "finished" 30 ]},
                 None, Some {[ "ResourceName" := "ec2" ]})) as Hret
    by (vm_compute; reflexivity).
  split; [exact Hret|].
  destruct (GetSummary_keeps_latest_status threeReports map_to_list "run_1"
              (Some ∅) (result ["s10"; "s30"; "s20"] []) _ _ _
              (statusDoc "ec2" 10 0 "fetching")
              (λ m, reflexivity _) eq_refl Hret (list_elem_of_here _ _))
    as (row & latest & Hrow & Hlatest & Htime & Hstatus & Hmessage).
  exists row, latest. repeat (split; [assumption|]).
  destruct Hlatest as (Hin & _ & Hmax).
  pose proof (Hmax (statusDoc "ec2" 30 2 "finished")
                (list_elem_of_further _ _ _ (list_elem_of_here _ _)) eq_refl) as H30.
  clear Hret Hrow Htime Hstatus Hmessage Hmax.
  apply elem_of_cons in Hin as [->|Hin]; [exfalso; cbn in H30; lia|].
  apply elem_of_cons in Hin as [->|Hin]; [reflexivity|].
  apply elem_of_cons in Hin as [->|Hin]; [exfalso; cbn in H30; lia|].
  exfalso. exact (proj1 (elem_of_nil _) Hin).
Defined.

(** C8 as stated fails: a document whose [EventTime] equals that of the
    row of its resource replaces the row. Two reports of [ec2] at time
    10: the merge step replaces the row of the first by that of the
    second, and [GetSummary] returns the status of the second. *)
Lemma mergeStatus_tie_replaces_incumbent :
  ({[ "ec2" := statusRow (statusDoc "ec2" 10 1 "first") ]}
     : gmap string storage.CollectorsSummary) !! "ec2"
  = Some (statusRow (statusDoc "ec2" 10 1 "first"))
  ∧ storage.Summary_EventTime (statusDoc "ec2" 10 2 "second")
    = storage.CollectorsSummary_EventTime (statusRow (statusDoc "ec2" 10 1 "first"))
  ∧ mergeStatus {[ "ec2" := statusRow (statusDoc "ec2" 10 1 "first") ]}
      (Some (statusDoc "ec2" 10 2 "second"))
    ≠ {[ "ec2" := statusRow (statusDoc "ec2" 10 1 "first") ]}
  ∧ GetSummary tiedReports map_to_list "run_1" (Some ∅)
    = Ret ({[ "ec2" := storage.mkCollectorsSummary "ec2" 2 12.5%float 2 "second" 10 ]},
           None, Some {[ "ResourceName" := "ec2" ]}).
Proof.
  split; [vm_compute; reflexivity|]. split; [reflexivity|].
  split; [|vm_compute; reflexivity].
  intros H. apply (f_equal (λ m, m !! "ec2")) in H. vm_compute in H. discriminate.
Qed.

(** C8, amended: when the resource of a document has a row, the row is
    kept only if the document is strictly older than it; a document of
    the same or a later [EventTime] replaces the row. *)
Theorem mergeStatus_keeps_row_of_later_only summary d val :
  summary !! storage.Summary_ResourceName d = Some val →
  (storage.Summary_EventTime d < storage.CollectorsSummary_EventTime val →
   mergeStatus summary (Some d) = summary)
  ∧ (storage.CollectorsSummary_EventTime val ≤ storage.Summary_EventTime d →
     mergeStatus summary (Some d)
     = <[storage.Summary_ResourceName d := statusRow d]> summary).
Proof.
  intros Hval. unfold mergeStatus. cbv zeta. rewrite Hval. split; intros Ht.
  - by assert ((storage.Summary_EventTime d
                <? storage.CollectorsSummary_EventTime val) = true)
      as -> by (apply Z.ltb_lt; lia).
  - assert ((storage.Summary_EventTime d
             <? storage.CollectorsSummary_EventTime val) = false)
      as -> by (apply Z.ltb_ge; lia).
    apply insert_delete_eq.
Qed.

Lemma mergeStatus_keeps_row_of_later_only_witness :
  mergeStatus {[ "ec2" := statusRow (statusDoc "ec2" 10 1 "first") ]}
    (Some (statusDoc "ec2" 10 2 "second"))
  = <["ec2" := statusRow (statusDoc "ec2" 10 2 "second")]>
      {[ "ec2" := statusRow (statusDoc "ec2" 10 1 "first") ]}.
Proof.
  apply (mergeStatus_keeps_row_of_later_only
           {[ "ec2" := statusRow (statusDoc "ec2" 10 1 "first") ]}
           (statusDoc "ec2" 10 2 "second")
           (statusRow (statusDoc "ec2" 10 1 "first"))).
  - vm_compute. reflexivity.
  - vm_compute. discriminate.
Defined.

(** C2 as stated fails for malformed aggregation data: the answer to the
    cost search of [ec2] has no [sum] aggregation, and [GetSummary]
    returns no error, with a row whose spend and count are zero. *)
Lemma GetSummary_succeeds_without_sum :
  Do (client noSum) (detailsRequest noSum "run_1" (Some {[ "ResourceName" := "ec2" ]}))
  = (Some (result [] [("total", "{value:12.5}")]), None)
  ∧ Terms noSum
      (elastic.SearchResult_Aggregations (result [] [("total", "{value:12.5}")]))
      "sum" = None
  ∧ GetSummary noSum map_to_list "run_1" (Some ∅)
    = Ret ({[ "ec2" := storage.mkCollectorsSummary "ec2" 0 0%float 0 EmptyString 10 ]},
           None, Some {[ "ResourceName" := "ec2" ]}).
Proof. repeat split; vm_compute; reflexivity. Qed.

(** C2, amended: when the status search fails, [GetSummary] returns that
    error with an empty summary, whatever else the client returns. When
    it succeeds, [GetSummary] returns no error: a cost search whose
    answer lacks the sum, or the value of the sum, reports a spend and a
    count of zero and no error, and the row of its resource has them. *)
Theorem GetSummary_fails_with_status_search_only
    sm range executionID filters res err0 :
  Do (client sm) (statusRequest executionID) = (res, err0) →
  (∀ e, err0 = Some e →
     GetSummary sm range executionID filters = Ret (∅, Some e, filters))
  ∧ (err0 = None →
     ∀ summary err filters',
       GetSummary sm range executionID filters = Ret (summary, err, filters') →
       err = None
       ∧ ∀ f name r,
           range_ok range →
           filters = Some f →
           is_Some (summary !! name) →
           Do (client sm)
              (detailsRequest sm executionID (Some (<["ResourceName" := name]> f)))
           = (Some r, None) →
           Terms sm (elastic.SearchResult_Aggregations r) "sum" = None
           ∨ (∃ resp,
                Terms sm (elastic.SearchResult_Aggregations r) "sum" = Some resp
                ∧ elastic.AggregationBucketKeyItems_Aggregations resp !! "value"
                  = None) →
           getResourceSummaryDetails sm executionID
             (Some (<["ResourceName" := name]> f)) = Ret (0%float, 0, None)
           ∧ ∃ row, summary !! name = Some row
                    ∧ storage.CollectorsSummary_TotalSpent row = 0%float
                    ∧ storage.CollectorsSummary_ResourceCount row = 0).
Proof.
  intros HDo. split.
  - intros e ->. by apply GetSummary_status_fails with res.
  - intros -> summary err filters' Hret. split.
    + unfold GetSummary in Hret. rewrite HDo in Hret.
      destruct res as [r|]; cbn [deref go_bind] in Hret; [|done].
      destruct (go_foldl _ _ _); cbn [go_bind] in Hret; congruence.
    + intros f name r Hok -> Hsome HDo' Hno.
      pose proof (getResourceSummaryDetails_no_sum _ _ _ _ HDo' Hno) as Hzero.
      split; [done|].
      destruct res as [r0|];
        [|unfold GetSummary in Hret; rewrite HDo in Hret; done].
      destruct (GetSummary_rows _ _ _ _ _ _ _ _ Hok HDo Hret) as (_ & _ & Hrows).
      specialize (Hrows name).
      pose proof (statusSummary_latest (Each (client sm) r0) name) as Hlatest.
      destruct (statusSummary (Each (client sm) r0) !! name) as [row0|].
      * destruct Hrows as (details & Hd & Hrow).
        unfold detailsOf in Hd. rewrite Hzero in Hd. injection Hd as <-.
        destruct Hlatest as (latest & _ & ->). eexists. by split.
      * rewrite Hrows in Hsome. by destruct Hsome.
Qed.

Lemma GetSummary_fails_with_status_search_only_witness :
  GetSummary statusDown map_to_list "run_1" (Some ∅)
  = Ret (∅, Some "connection refused", Some ∅).
Proof.
  apply (proj1 (GetSummary_fails_with_status_search_only statusDown map_to_list
                  "run_1" (Some ∅) None (Some "connection refused") eq_refl)).
  reflexivity.
Defined.

(** With a client that handed out a result next to the error of a cost
    search, the row of that resource would keep its zero spend and
    count, and the call would return. *)
Lemma GetSummary_cost_search_fails_with_result
    sm range executionID filters r summary err filters' name row r' e :
  range_ok range →
  Do (client sm) (statusRequest executionID) = (Some r, None) →
  GetSummary sm range executionID (Some filters) = Ret (summary, err, filters') →
  statusSummary (Each (client sm) r) !! name = Some row →
  Do (client sm)
     (detailsRequest sm executionID (Some (<["ResourceName" := name]> filters)))
  = (Some r', Some e) →
  summary !! name = Some row.
Proof.
  intros Hok HDo Hret Hrow HDo'.
  destruct (GetSummary_rows _ _ _ _ _ _ _ _ Hok HDo Hret) as (_ & _ & Hrows).
  specialize (Hrows name). rewrite Hrow in Hrows.
  destruct Hrows as (details & Hd & ->).
  unfold detailsOf in Hd.
  rewrite (getResourceSummaryDetails_search_fails_with_result _ _ _ _ _ HDo') in Hd.
  by injection Hd as <-.
Qed.

(** The cost search of a resource with a status document fails and the
    client returns no result: [GetSummary] panics, in whatever order the
    runtime visits the resources. *)
Lemma GetSummary_cost_search_fails
    sm range executionID filters r name row e :
  range_ok range →
  Do (client sm) (statusRequest executionID) = (Some r, None) →
  statusSummary (Each (client sm) r) !! name = Some row →
  Do (client sm)
     (detailsRequest sm executionID (Some (<["ResourceName" := name]> filters)))
  = (None, Some e) →
  GetSummary sm range executionID (Some filters) = Panic nil_dereference.
Proof.
  intros Hok HDo Hrow HDo'.
  destruct (GetSummary sm range executionID (Some filters))
    as [[[summary err] filters']|msg] eqn:Hret.
  - destruct (GetSummary_rows _ _ _ _ _ _ _ _ Hok HDo Hret) as (_ & _ & Hrows).
    specialize (Hrows name). rewrite Hrow in Hrows.
    destruct Hrows as (details & Hd & _). unfold detailsOf in Hd.
    by rewrite (getResourceSummaryDetails_search_fails _ _ _ _ HDo') in Hd.
  - rewrite (GetSummary_unfold _ _ _ _ r HDo) in Hret.
    destruct (go_foldl _ _ _) as [s|m] eqn:Hloop; [done|].
    cbn [go_bind] in Hret. injection Hret as <-. f_equal.
    clear Hrow HDo'. revert Hloop.
    generalize (statusSummary (Each (client sm) r)) at 1.
    induction (range (statusSummary (Each (client sm) r))) as [|x l IH];
      intros s Hloop; [done|].
    cbn [go_foldl] in Hloop.
    destruct (addDetailsTo sm executionID filters s x) as [s'|m'] eqn:Hx;
      cbn [go_bind] in Hloop.
    + by apply IH with s'.
    + injection Hloop as <-. by apply addDetailsTo_panic in Hx.
Qed.

(** C3, at a store with two resources where the cost search fails for
    [rds] alone: the client returns a nil result and the error,
    [getResourceSummaryDetails] reads [TookInMillis] of that result for
    its log entry, and [GetSummary] panics, whichever resource it visits
    first, where the claim has it succeed with a zero row for [rds].
    With a client that handed out a result next to the error the call
    would return the rows of the claim. *)
Theorem GetSummary_panics_when_cost_search_fails :
  Do (client rdsCostDown)
     (detailsRequest rdsCostDown "run_1" (Some {[ "ResourceName" := "rds" ]}))
  = (None, Some "connection refused")
  ∧ GetSummary rdsCostDown map_to_list "run_1" (Some ∅) = Panic nil_dereference
  ∧ GetSummary rdsCostDown (reverse ∘ map_to_list) "run_1" (Some ∅)
    = Panic nil_dereference
  ∧ GetSummary rdsCostError map_to_list "run_1" (Some ∅)
    = Ret ({[ "ec2" := storage.mkCollectorsSummary "ec2" 2 12.5%float 0 EmptyString 10;
              "rds" := storage.mkCollectorsSummary "rds" 0 0%float 0 EmptyString 11 ]},
           None, Some {[ "ResourceName" := "rds" ]}).
Proof. repeat split; vm_compute; reflexivity. Qed.

(** ** Calling [GetSummary] again *)

Lemma go_foldl_ext {A B} (f g : A → B → go A) (xs : list B) :
  (∀ a x, f a x = g a x) → ∀ a, go_foldl f a xs = go_foldl g a xs.
Proof.
  intros Hfg. induction xs as [|x xs IH]; intros a; [done|].
  cbn [go_foldl]. rewrite Hfg. destruct (g a x); cbn [go_bind]; auto.
Qed.

Lemma filtersAfter_other {V} (filters : gmap string string)
    (entries : list (string * V)) k :
  k ≠ "ResourceName" → filtersAfter filters entries !! k = filters !! k.
Proof.
  intros Hk. unfold filtersAfter. destruct (last entries); [|done].
  by rewrite lookup_insert_ne.
Qed.

(** What an earlier call left under [ResourceName] does not reach the
    cost searches. *)
Lemma addDetailsTo_filtersAfter {V} sm executionID filters
    (entries : list (string * V)) summary entry :
  addDetailsTo sm executionID (filtersAfter filters entries) summary entry
  = addDetailsTo sm executionID filters summary entry.
Proof.
  unfold addDetailsTo, detailsOf, filtersAfter.
  destruct (last entries); [|done]. by rewrite insert_insert_eq.
Qed.

(** C9 as stated fails: [GetSummary] writes to the map of filters that
    the caller passed. The map is empty before the call and holds the
    name of the resource under [ResourceName] after it. *)
Lemma GetSummary_writes_to_filters :
  GetSummary threeReports map_to_list "run_1" (Some ∅)
  = Ret ({[ "ec2" := storage.mkCollectorsSummary "ec2" 2 12.5%float 2 "finished" 30 ]},
         None, Some {[ "ResourceName" := "ec2" ]})
  ∧ map_get (Some ({[ "ResourceName" := "ec2" ]} : gmap string string)) "ResourceName"
    ≠ map_get (Some (∅ : gmap string string)) "ResourceName".
Proof. split; [vm_compute; reflexivity|]. vm_compute. discriminate. Qed.

(** C9, amended, for [GetSummary]; [GetExecutions] and [GetResources]
    take an integer and strings, which a callee cannot modify, and are
    functions of their arguments and the store. A call of [GetSummary]
    that returns leaves the caller's filters as they were but for the
    key [ResourceName], which holds the name of a resource of the
    summary when there is one; a second call with the filters so left,
    in whatever order the runtime visits the resources, returns the
    same summary and error. A call that panics panics in every order. *)
Theorem GetSummary_repeatable sm range range' executionID filters :
  range_ok range →
  range_ok range' →
  match GetSummary sm range executionID filters with
  | Ret (summary, err, filters') =>
      (∃ filters'',
         GetSummary sm range' executionID filters' = Ret (summary, err, filters''))
      ∧ (∀ k, k ≠ "ResourceName" → map_get filters' k = map_get filters k)
      ∧ (summary = ∅ → filters' = filters)
      ∧ (summary ≠ ∅ →
         ∃ name, is_Some (summary !! name)
                 ∧ map_get filters' "ResourceName" = Some name)
  | Panic msg => GetSummary sm range' executionID filters = Panic msg
  end.
Proof.
  intros Hok Hok'.
  destruct (Do (client sm) (statusRequest executionID)) as [res [e|]] eqn:HDo.
  { rewrite (GetSummary_status_fails _ range _ _ _ _ HDo).
    split; [eexists; by apply GetSummary_status_fails with res|].
    split; [done|]. split; [done|]. by intros []. }
  destruct res as [r|]; [|by unfold GetSummary; rewrite HDo].
  set (summary0 := statusSummary (Each (client sm) r)).
  assert (range summary0 ≡ₚ range' summary0) as Hperm
    by (by rewrite (Hok summary0), (Hok' summary0)).
  destruct filters as [f|].
  - destruct (GetSummary sm range executionID (Some f))
      as [[[summary err] filters']|msg] eqn:Hret.
    + destruct (GetSummary_rows _ _ _ _ _ _ _ _ Hok HDo Hret) as (-> & -> & Hrows).
      fold summary0 in Hrows.
      rewrite (GetSummary_unfold _ _ _ _ r HDo) in Hret. fold summary0 in Hret.
      destruct (go_foldl _ summary0 (range summary0)) as [s|] eqn:Hloop; [|done].
      cbn [go_bind] in Hret. injection Hret as <-.
      assert (s = ∅ ↔ summary0 = ∅) as Hempty.
      { split; intros ->; apply map_eq; intros name; specialize (Hrows name);
          rewrite lookup_empty in *.
        - destruct (summary0 !! name); [|done]. by destruct Hrows as (? & _ & ?).
        - done. }
      split; [|split; [|split]].
      * eexists. rewrite (GetSummary_unfold _ _ _ _ r HDo). fold summary0.
        rewrite (go_foldl_ext _ (addDetailsTo sm executionID f));
          [|intros a x; apply addDetailsTo_filtersAfter].
        rewrite <- (second_loop_order sm executionID f _ _ Hperm
                      (range_ok_NoDup range _ Hok)).
        by rewrite Hloop.
      * intros k Hk. cbn. by apply filtersAfter_other.
      * intros Hs. apply Hempty in Hs. apply (range_ok_nil range) in Hs; [|done].
        unfold summary0 in Hs. by rewrite Hs.
      * intros Hs. unfold filtersAfter, map_get. fold summary0.
        destruct (last (range summary0)) as [[name data]|] eqn:Hlast.
        -- exists name. cbn [fst]. rewrite lookup_insert_eq. split; [|done].
           apply last_Some_elem_of, (range_ok_elem_of range) in Hlast; [|done].
           specialize (Hrows name). rewrite Hlast in Hrows.
           destruct Hrows as (? & _ & ->). done.
        -- apply last_None, (range_ok_nil range) in Hlast; [|done].
           by apply Hempty in Hlast.
    + rewrite (GetSummary_unfold _ range _ _ r HDo) in Hret.
      rewrite (GetSummary_unfold _ range' _ _ r HDo). fold summary0 in Hret |- *.
      rewrite <- (second_loop_order sm executionID f _ _ Hperm
                    (range_ok_NoDup range _ Hok)).
      by destruct (go_foldl _ summary0 (range summary0)).
  - rewrite (GetSummary_nil_filters _ range _ r HDo). fold summary0.
    destruct (range summary0) as [|x l] eqn:Hrange.
    + apply Permutation_nil_l in Hperm.
      split; [|split; [done|]; split; [done|]].
      * eexists. rewrite (GetSummary_nil_filters _ range' _ r HDo). fold summary0.
        by rewrite <- Hperm.
      * intros Hs. destruct Hs. by apply (range_ok_nil range).
    + rewrite (GetSummary_nil_filters _ range' _ r HDo). fold summary0.
      destruct (range' summary0) eqn:Hrange'; [|done].
      by apply Permutation_nil_r in Hperm.
Qed.

Lemma GetSummary_repeatable_witness :
  GetSummary twoResources map_to_list "run_1" (Some ∅)
  = Ret ({[ "ec2" := storage.mkCollectorsSummary "ec2" 2 12.5%float 0 EmptyString 10;
            "rds" := storage.mkCollectorsSummary "rds" 2 12.5%float 0 EmptyString 11 ]},
         None, Some {[ "ResourceName" := "rds" ]})
  ∧ ∃ filters'',
      GetSummary twoResources (reverse ∘ map_to_list) "run_1"
        (Some {[ "ResourceName" := "rds" ]})
      = Ret ({[ "ec2" := storage.mkCollectorsSummary "ec2" 2 12.5%float 0 EmptyString 10;
                "rds" := storage.mkCollectorsSummary "rds" 2 12.5%float 0 EmptyString 11 ]},
             None, filters'').
Proof.
  assert (GetSummary twoResources map_to_list "run_1" (Some ∅)
          = Ret ({[ "ec2" := storage.mkCollectorsSummary "ec2" 2 12.5%float 0 EmptyString 10;
                    "rds" := storage.mkCollectorsSummary "rds" 2 12.5%float 0 EmptyString 11 ]},
                 None, Some {[ "ResourceName" := "rds" ]})) as Hret
    by (vm_compute; reflexivity).
  split; [exact Hret|].
  pose proof (GetSummary_repeatable twoResources map_to_list (reverse ∘ map_to_list)
                "run_1" (Some ∅) (λ m, reflexivity _)
                (λ m, reverse_Permutation (map_to_list m))) as Hagain.
  rewrite Hret in Hagain. exact (proj1 Hagain).
Defined.

(** ** More on [GetExecutions] *)

Lemma Split_segments_free s c : Forall (λ x, free_of c x = true) (strings.Split s c).
Proof.
  induction s as [|a s IH]; simpl; [by repeat constructor|].
  destruct (Ascii.eqb a c) eqn:E; [by constructor|].
  destruct (strings.Split s c) as [|h t]; [by repeat constructor; simpl; rewrite E|].
  apply Forall_cons in IH as [Hh Ht]. constructor; [|done].
  simpl. by rewrite E.
Qed.

Lemma append_assoc (a b c : string) : (a +:+ b) +:+ c = a +:+ b +:+ c.
Proof.
  induction a as [|x a IH]; [done|].
  change (String x ((a +:+ b) +:+ c) = String x (a +:+ b +:+ c)). by f_equal.
Qed.

Lemma Join_snoc init x sep :
  init ≠ [] →
  strings.Join (init ++ [x]) sep = strings.Join init sep +:+ sep +:+ x.
Proof.
  induction init as [|a init IH]; [done|]. intros _.
  destruct init as [|b init]; [done|].
  change (strings.Join ((a :: b :: init) ++ [x]) sep)
    with (a +:+ sep +:+ strings.Join ((b :: init) ++ [x]) sep).
  rewrite IH by done.
  change (strings.Join (a :: b :: init) sep)
    with (a +:+ sep +:+ strings.Join (b :: init) sep).
  by rewrite !append_assoc.
Qed.

Lemma ParseUint_go_nonneg s : ∀ acc un,
  0 ≤ acc → strconv.ParseUint_go s acc = inl un → 0 ≤ un.
Proof.
  induction s as [|c s IH]; intros acc un Hacc; simpl; [by intros [= <-]|].
  unfold strconv.digit.
  destruct ((48 <=? Z.of_N (N_of_ascii c)) && (Z.of_N (N_of_ascii c) <=? 57)) eqn:Hd;
    [|done].
  apply andb_true_iff in Hd as [Hlo _]. apply Z.leb_le in Hlo.
  destruct (2 ^ 64 <=? _); [done|]. apply IH. lia.
Qed.

(** [strconv.ParseInt] returns 64-bit integers only. *)
Lemma ParseInt_int64 s v :
  strconv.ParseInt s = inl v → - 2 ^ 63 ≤ v < 2 ^ 63.
Proof.
  unfold strconv.ParseInt. destruct s as [|c s]; [done|].
  set (s1 := if Ascii.eqb c "+" || Ascii.eqb c "-" then s else String c s).
  destruct (strconv.ParseUint s1) as [un|[]] eqn:Hun; [|done..].
  assert (0 ≤ un) as Hnonneg.
  { unfold strconv.ParseUint in Hun. destruct s1; [done|].
    by apply ParseUint_go_nonneg in Hun. }
  destruct (Ascii.eqb c "-"); cbn [negb andb].
  - destruct (Z.ltb_spec (2 ^ 63) un); [done|]. intros [= <-]. lia.
  - destruct (Z.leb_spec (2 ^ 63) un); [done|]. intros [= <-]. lia.
Qed.

(** The record of an identifier gives the identifier back. *)
Lemma executionOf_parts executionID e :
  executionOf executionID = Some e →
  storage.Executions_ID e = executionID
  ∧ ∃ ts,
      free_of "_" ts = true
      ∧ strconv.ParseInt ts = inl (time.sec (storage.Executions_Time e))
      ∧ time.nsec (storage.Executions_Time e) = 0
      ∧ (executionID = ts ∧ storage.Executions_Name e = EmptyString
         ∨ executionID = storage.Executions_Name e +:+ "_" +:+ ts).
Proof.
  intros He. split; [by apply executionOf_ID|].
  unfold executionOf in He.
  pose proof (Join_Split executionID "_") as Hjoin.
  pose proof (Split_segments_free executionID "_") as Hfree.
  destruct (exists_last (Split_not_nil executionID "_")) as (init & ts & Hsplit).
  rewrite Hsplit in He, Hjoin, Hfree.
  rewrite removelast_last, last_last in He.
  apply Forall_app in Hfree as [_ [Hts _]%Forall_cons].
  destruct (strconv.ParseInt ts) as [t|] eqn:Ht; [|done].
  injection He as <-. exists ts. cbn. split; [done|]. split; [done|]. split; [done|].
  destruct init as [|a init]; [by left|]. right.
  by rewrite <- Hjoin, Join_snoc.
Qed.

(** What any call of [GetExecutions] that returns has returned: the
    records of some keys. *)
Lemma GetExecutions_records sm queryLimit executions err e :
  GetExecutions sm queryLimit = Ret (executions, err) →
  e ∈ executions →
  ∃ key, executionOf key = Some e.
Proof.
  unfold GetExecutions.
  destruct (Do _ _) as [[r|] [e0|]]; cbn [deref go_bind]; try done.
  - intros [= <- _] Hin. by apply elem_of_nil in Hin.
  - destruct (Terms _ _ _) as [resp|].
    + rewrite outer_loop_executionOf. cbn [go_bind app].
      intros [= <- _] (key & _ & Hkey)%list_elem_of_omap. by exists key.
    + intros [= <- _] Hin. by apply elem_of_nil in Hin.
Qed.

(** X1: [GetExecutions] panics only if the client returns no result;
    whenever the client returns one, with or without an error, the call
    returns, and with a nil error. The slice and the index of the inner
    loop are always in range, whatever the keys. *)
Theorem GetExecutions_returns_unless_no_result sm queryLimit :
  match (Do (client sm) (executionsRequest queryLimit)).1 with
  | Some _ => ∃ executions, GetExecutions sm queryLimit = Ret (executions, None)
  | None => GetExecutions sm queryLimit = Panic nil_dereference
  end.
Proof.
  unfold GetExecutions.
  destruct (Do _ _) as [[r|] [e|]]; cbn [fst deref go_bind]; try done.
  - by eexists.
  - destruct (Terms _ _ _) as [resp|]; [|by eexists].
    rewrite outer_loop_executionOf. by eexists.
Qed.

(** X2: every record that [GetExecutions] returns gives its identifier
    back: the identifier is the name, an underscore and the decimal text
    of the time, or, for a record with an identifier without underscore,
    that text alone and the name is empty. *)
Theorem GetExecutions_identifier_round_trip sm queryLimit executions err e :
  GetExecutions sm queryLimit = Ret (executions, err) →
  e ∈ executions →
  ∃ ts,
    free_of "_" ts = true
    ∧ strconv.ParseInt ts = inl (time.sec (storage.Executions_Time e))
    ∧ (storage.Executions_ID e = ts
       ∧ storage.Executions_Name e = EmptyString
       ∨ storage.Executions_ID e = storage.Executions_Name e +:+ "_" +:+ ts).
Proof.
  intros Hret Hin.
  destruct (GetExecutions_records _ _ _ _ _ Hret Hin) as (key & Hkey).
  destruct (executionOf_parts _ _ Hkey) as (-> & ts & Hfree & Hts & _ & Hid).
  by exists ts.
Qed.

Lemma GetExecutions_identifier_round_trip_witness :
  ∃ ts,
    free_of "_" ts = true
    ∧ strconv.ParseInt ts = inl 42
    ∧ ("a_b_c_42" = ts ∧ "a_b_c" = EmptyString
       ∨ "a_b_c_42" = "a_b_c" +:+ "_" +:+ ts).
Proof.
  apply (GetExecutions_identifier_round_trip
           (executionsStore ["noTimestamp"; "a_b_c_42"]) 5
           [storage.mkExecutions "a_b_c_42" "a_b_c" (time.mkTime 42 0)] None
           (storage.mkExecutions "a_b_c_42" "a_b_c" (time.mkTime 42 0))).
  - reflexivity.
  - apply list_elem_of_here.
Defined.

(** X3: the time of every record that [GetExecutions] returns is a
    whole number of seconds that fits in 64 bits: an identifier whose
    last segment is out of that range gives no record. *)
Theorem GetExecutions_times_fit_int64 sm queryLimit executions err e :
  GetExecutions sm queryLimit = Ret (executions, err) →
  e ∈ executions →
  - 2 ^ 63 ≤ time.sec (storage.Executions_Time e) < 2 ^ 63
  ∧ time.nsec (storage.Executions_Time e) = 0.
Proof.
  intros Hret Hin.
  destruct (GetExecutions_records _ _ _ _ _ Hret Hin) as (key & Hkey).
  destruct (executionOf_parts _ _ Hkey) as (_ & ts & _ & Hts & Hnsec & _).
  split; [|done]. by apply ParseInt_int64 in Hts.
Qed.

Lemma GetExecutions_times_fit_int64_witness :
  GetExecutions
    (executionsStore ["max_9223372036854775807"; "over_9223372036854775808";
                      "min_-9223372036854775808"]) 5
  = Ret ([storage.mkExecutions "max_9223372036854775807" "max"
            (time.mkTime 9223372036854775807 0);
          storage.mkExecutions "min_-9223372036854775808" "min"
            (time.mkTime (-9223372036854775808) 0)], None)
  ∧ - 2 ^ 63 ≤ 9223372036854775807 < 2 ^ 63
  ∧ 0 = 0.
Proof.
  assert (GetExecutions
            (executionsStore ["max_9223372036854775807"; "over_9223372036854775808";
                              "min_-9223372036854775808"]) 5
          = Ret ([storage.mkExecutions "max_9223372036854775807" "max"
                    (time.mkTime 9223372036854775807 0);
                  storage.mkExecutions "min_-9223372036854775808" "min"
                    (time.mkTime (-9223372036854775808) 0)], None)) as Hret
    by (vm_compute; reflexivity).
  split; [exact Hret|].
  exact (GetExecutions_times_fit_int64 _ _ _ _
           (storage.mkExecutions "max_9223372036854775807" "max"
              (time.mkTime 9223372036854775807 0))
           Hret (list_elem_of_here _ _)).
Defined.

(** ** [getDynamicMatchQuery] *)

Lemma getDynamicMatchQuery_loop (entries : list (string * string)) : ∀ acc,
  foldl (λ dynamicMatchQuery '(name, value),
           (dynamicMatchQuery ++ [elastic.MatchQuery name value])%list)
        acc entries
  = (acc ++ ((λ entry, elastic.MatchQuery entry.1 entry.2) <$> entries))%list.
Proof.
  induction entries as [|[name value] entries IH]; intros acc; simpl;
    [by rewrite app_nil_r|].
  by rewrite IH, <- app_assoc.
Qed.

Lemma getDynamicMatchQuery_fmap sm filters :
  getDynamicMatchQuery sm filters
  = (λ entry, elastic.MatchQuery entry.1 entry.2) <$> map_entries filters.
Proof. unfold getDynamicMatchQuery. by rewrite getDynamicMatchQuery_loop. Qed.

(** X4: [getDynamicMatchQuery] gives one match query for every filter
    and nothing else: a query is in the result exactly if it matches a
    key of the filters against its value, and no query is there twice. A nil
    or empty map gives no query. *)
Theorem getDynamicMatchQuery_one_query_per_filter sm filters :
  NoDup (getDynamicMatchQuery sm filters)
  ∧ ∀ q, q ∈ getDynamicMatchQuery sm filters
         ↔ ∃ name value, q = elastic.MatchQuery name value
                         ∧ map_get filters name = Some value.
Proof.
  rewrite getDynamicMatchQuery_fmap. split.
  - apply NoDup_fmap_2.
    + intros [n1 v1] [n2 v2] [= -> ->]. done.
    + destruct filters as [g|]; [apply NoDup_map_to_list|constructor].
  - intros q. rewrite list_elem_of_fmap. split.
    + intros ([name value] & -> & Hin). exists name, value. split; [done|].
      destruct filters as [g|]; [by apply elem_of_map_to_list|].
      by apply elem_of_nil in Hin.
    + intros (name & value & -> & Hget). exists (name, value). split; [done|].
      destruct filters as [g|]; [by apply elem_of_map_to_list|done].
Qed.

(** ** [createIndex] *)

(** The default mapping, byte for byte. *)
Example indexMapping_bytes :
  (λ c, nat_of_ascii c) <$> list_ascii_of_string indexMapping = [
    123; 10; 9; 9; 34; 109; 97; 112; 112; 105; 110; 103; 115; 34; 58;
    123; 10; 9; 9; 9; 34; 112; 114; 111; 112; 101; 114; 116; 105; 101;
    115; 34; 58; 123; 10; 9; 9; 9; 9; 34; 82; 101; 115; 111; 117; 114;
    99; 101; 78; 97; 109; 101; 34; 58; 123; 10; 9; 9; 9; 9; 9; 34; 116;
    121; 112; 101; 34; 58; 34; 107; 101; 121; 119; 111; 114; 100; 34;
    10; 9; 9; 9; 9; 125; 44; 10; 9; 9; 9; 9; 34; 69; 120; 101; 99; 117;
    116; 105; 111; 110; 73; 68; 34; 58; 123; 10; 9; 9; 9; 9; 9; 34; 116;
    121; 112; 101; 34; 58; 34; 107; 101; 121; 119; 111; 114; 100; 34;
    10; 9; 9; 9; 9; 125; 44; 10; 9; 9; 9; 9; 34; 69; 118; 101; 110; 116;
    84; 121; 112; 101; 34; 58; 123; 10; 9; 9; 9; 9; 9; 34; 116; 121;
    112; 101; 34; 58; 34; 107; 101; 121; 119; 111; 114; 100; 34; 10; 9;
    9; 9; 9; 125; 10; 9; 9; 9; 125; 10; 9; 9; 125; 10; 9; 125]%nat.
Proof. vm_compute. reflexivity. Qed.

Lemma indexSet_index_store : index_store indexSet id.
Proof.
  split.
  - by intros store index exists_ [= <-].
  - intros store index body store' err. cbn.
    destruct (String.eqb index EmptyString); [by intros [= <- <-]|].
    by destruct (store !! index) as [mapping|] eqn:Hindex; intros [= <- <-].
Qed.

(** X6: what [createIndex] does to the indices of a store. It leaves
    them as they are, or it adds the index it was called for, which was
    missing, with [indexMapping] as its body: an index that is there is
    never created again or changed, no other index is touched, and no
    other body is sent. A second call for the same index leaves the
    store as the first call left it. *)
Theorem createIndex_adds_missing_index_once {S} (api : Indices S) view sm
    store index :
  index_store api view →
  (createIndex api sm store index = store
   ∨ (view store !! index = None
      ∧ view (createIndex api sm store index)
        = <[index := indexMapping]> (view store)))
  ∧ (is_Some (view store !! index) → createIndex api sm store index = store)
  ∧ createIndex api sm (createIndex api sm store index) index
    = createIndex api sm store index.
Proof.
  intros [Hexists Hcreate].
  assert (∀ store, is_Some (view store !! index) →
                   createIndex api sm store index = store) as Hthere.
  { intros store0 Hsome. unfold createIndex.
    destruct (IndexExists api store0 index) as [exists_ [e|]] eqn:Hcheck; [done|].
    apply Hexists in Hcheck. rewrite bool_decide_eq_true_2 in Hcheck by done.
    by subst exists_. }
  split; [|split; [by apply Hthere|]].
  - unfold createIndex.
    destruct (IndexExists api store index) as [exists_ [e|]] eqn:Hcheck;
      [by left|].
    destruct exists_; [by left|].
    apply Hexists in Hcheck. symmetry in Hcheck.
    apply bool_decide_eq_false in Hcheck.
    destruct (CreateIndex api store index indexMapping) as [store' [e|]] eqn:Hnew.
    + left. by apply Hcreate in Hnew.
    + right. apply Hcreate in Hnew. split; [|done].
      by apply eq_None_not_Some.
  - unfold createIndex at 2 3.
    destruct (IndexExists api store index) as [exists_ [e|]] eqn:Hcheck.
    { unfold createIndex. by rewrite Hcheck. }
    destruct exists_.
    { unfold createIndex. by rewrite Hcheck. }
    destruct (CreateIndex api store index indexMapping) as [store' [e|]] eqn:Hnew.
    + pose proof (Hcreate _ _ _ _ _ Hnew) as Hsame. cbn in Hsame. subst store'.
      unfold createIndex. by rewrite Hcheck, Hnew.
    + apply Hthere. apply Hcreate in Hnew. rewrite Hnew.
      rewrite lookup_insert_eq. by eexists.
Qed.

Lemma createIndex_adds_missing_index_once_witness :
  (createIndex indexSet threeReports ∅ "finala" = ∅
   ∨ ((∅ : gmap string string) !! "finala" = None
      ∧ id (createIndex indexSet threeReports ∅ "finala")
        = <["finala" := indexMapping]> (id ∅)))
  ∧ (is_Some (id (∅ : gmap string string) !! "finala") →
     createIndex indexSet threeReports ∅ "finala" = ∅)
  ∧ createIndex indexSet threeReports
      (createIndex indexSet threeReports ∅ "finala") "finala"
    = createIndex indexSet threeReports ∅ "finala".
Proof.
  apply (createIndex_adds_missing_index_once indexSet id threeReports ∅ "finala").
  exact indexSet_index_store.
Defined.

(** On a store without index, the index is created with the default
    mapping. *)
Example createIndex_on_empty_store :
  createIndex indexSet threeReports ∅ "finala"
  = {[ "finala" := indexMapping ]}.
Proof. vm_compute. reflexivity. Qed.

(** ** More on [GetSummary] *)

(** The rows of a summary that [GetSummary] returns, on any filters. *)
Lemma GetSummary_rows_any sm range executionID filters r summary err filters' :
  range_ok range →
  Do (client sm) (statusRequest executionID) = (Some r, None) →
  GetSummary sm range executionID filters = Ret (summary, err, filters') →
  ∀ name,
    match statusSummary (Each (client sm) r) !! name with
    | Some row => ∃ details, summary !! name = Some (detailedRow row details)
    | None => summary !! name = None
    end.
Proof.
  intros Hok HDo Hret name. destruct filters as [f|].
  - destruct (GetSummary_rows _ _ _ _ _ _ _ _ Hok HDo Hret) as (_ & _ & Hrows).
    specialize (Hrows name).
    destruct (statusSummary _ !! name); [|done].
    destruct Hrows as (details & _ & Hrow). by exists details.
  - rewrite (GetSummary_nil_filters _ _ _ r HDo) in Hret.
    destruct (range _) as [|entry entries] eqn:Hrange; [|done].
    injection Hret as <- _ _.
    apply (range_ok_nil range) in Hrange; [|done].
    by rewrite Hrange, lookup_empty.
Qed.

(** X7: the summary that [GetSummary] returns has a row for a name
    exactly if a status document of the execution has that name, and
    the row of a name carries that name. *)
Theorem GetSummary_one_row_per_resource
    sm range executionID filters r summary err filters' name :
  range_ok range →
  Do (client sm) (statusRequest executionID) = (Some r, None) →
  GetSummary sm range executionID filters = Ret (summary, err, filters') →
  (is_Some (summary !! name)
   ↔ ∃ d, d ∈ statusDocs (Each (client sm) r)
          ∧ storage.Summary_ResourceName d = name)
  ∧ ∀ row, summary !! name = Some row →
           storage.CollectorsSummary_ResourceName row = name.
Proof.
  intros Hok HDo Hret.
  pose proof (GetSummary_rows_any _ _ _ _ _ _ _ _ Hok HDo Hret name) as Hrow.
  pose proof (statusSummary_latest (Each (client sm) r) name) as Hlatest.
  destruct (statusSummary _ !! name) as [row0|].
  - destruct Hlatest as (latest & (Hin & Hname & _) & ->).
    destruct Hrow as (details & Hrow). split.
    + split; [by exists latest|by rewrite Hrow].
    + intros row. rewrite Hrow. intros [= <-].
      by destruct (detailedRow_status (statusRow latest) details) as (-> & _).
  - rewrite Hrow. split; [|done]. split; [by intros []|].
    intros (d & Hd & Hname). by destruct (Hlatest d Hd).
Qed.

Lemma GetSummary_one_row_per_resource_witness :
  (is_Some (({[ "ec2" := storage.mkCollectorsSummary "ec2" 2 12.5%float 0 EmptyString 10;
                "rds" := storage.mkCollectorsSummary "rds" 2 12.5%float 0 EmptyString 11 ]}
              : gmap string storage.CollectorsSummary) !! "ec2")
   ↔ ∃ d, d ∈ statusDocs (Each (client twoResources) (result ["ec2"; "rds"] []))
          ∧ storage.Summary_ResourceName d = "ec2")
  ∧ ∀ row,
      ({[ "ec2" := storage.mkCollectorsSummary "ec2" 2 12.5%float 0 EmptyString 10;
          "rds" := storage.mkCollectorsSummary "rds" 2 12.5%float 0 EmptyString 11 ]}
         : gmap string storage.CollectorsSummary) !! "ec2" = Some row →
      storage.CollectorsSummary_ResourceName row = "ec2".
Proof.
  apply (GetSummary_one_row_per_resource twoResources map_to_list "run_1" (Some ∅)
           (result ["ec2"; "rds"] []) _ None (Some {[ "ResourceName" := "rds" ]})).
  - intros m. reflexivity.
  - reflexivity.
  - vm_compute. reflexivity.
Defined.

(** X8: the spend and the count of a row that [GetSummary] returns are
    those that the cost search of its resource reported, a search made
    with the caller's filters and the name of the resource under
    [ResourceName]; they are zero if that search reported an error. *)
Theorem GetSummary_row_has_cost_of_its_search
    sm range executionID filters r summary err filters' name row :
  range_ok range →
  Do (client sm) (statusRequest executionID) = (Some r, None) →
  GetSummary sm range executionID (Some filters) = Ret (summary, err, filters') →
  summary !! name = Some row →
  ∃ totalSpent resourceCount e,
    getResourceSummaryDetails sm executionID
      (Some (<["ResourceName" := name]> filters))
    = Ret (totalSpent, resourceCount, e)
    ∧ match e with
      | None =>
          storage.CollectorsSummary_TotalSpent row = totalSpent
          ∧ storage.CollectorsSummary_ResourceCount row = resourceCount
      | Some _ =>
          storage.CollectorsSummary_TotalSpent row = 0%float
          ∧ storage.CollectorsSummary_ResourceCount row = 0
      end.
Proof.
  intros Hok HDo Hret Hrow.
  destruct (GetSummary_rows _ _ _ _ _ _ _ _ Hok HDo Hret) as (_ & _ & Hrows).
  specialize (Hrows name).
  pose proof (statusSummary_latest (Each (client sm) r) name) as Hlatest.
  destruct (statusSummary _ !! name) as [row0|]; [|congruence].
  destruct Hlatest as (latest & _ & ->).
  destruct Hrows as ([[t c] e] & Hd & Hrow'). rewrite Hrow in Hrow'.
  injection Hrow' as ->. exists t, c, e. split; [exact Hd|]. by destruct e.
Qed.

Lemma GetSummary_row_has_cost_of_its_search_witness :
  ∃ totalSpent resourceCount e,
    getResourceSummaryDetails twoResources "run_1"
      (Some (<["ResourceName" := "ec2"]> ∅))
    = Ret (totalSpent, resourceCount, e)
    ∧ match e with
      | None => 12.5%float = totalSpent ∧ 2 = resourceCount
      | Some _ => 12.5%float = 0%float ∧ 2 = 0
      end.
Proof.
  apply (GetSummary_row_has_cost_of_its_search twoResources map_to_list "run_1" ∅
           (result ["ec2"; "rds"] [])
           {[ "ec2" := storage.mkCollectorsSummary "ec2" 2 12.5%float 0 EmptyString 10;
              "rds" := storage.mkCollectorsSummary "rds" 2 12.5%float 0 EmptyString 11 ]}
           None (Some {[ "ResourceName" := "rds" ]}) "ec2"
           (storage.mkCollectorsSummary "ec2" 2 12.5%float 0 EmptyString 10)).
  - intros m. reflexivity.
  - reflexivity.
  - vm_compute. reflexivity.
  - vm_compute. reflexivity.
Defined.

Lemma statusDocs_Permutation items items' :
  items ≡ₚ items' → statusDocs items ≡ₚ statusDocs items'.
Proof.
  unfold statusDocs. induction 1 as [|x l l' _ IH|x y l|l l' l'' _ IH _ IH'].
  - done.
  - destruct x; simpl; by rewrite IH.
  - destruct x, y; simpl; try done. apply perm_swap.
  - by rewrite IH.
Qed.

(** X9: if no two documents of a resource have the same [EventTime],
    the first loop of [GetSummary] gives the same summary in whatever
    order the store returns the documents. *)
Theorem statusSummary_order_independent items items' :
  items ≡ₚ items' →
  tie_free (statusDocs items) →
  statusSummary items = statusSummary items'.
Proof.
  intros Hperm Hfree. apply statusDocs_Permutation in Hperm.
  apply map_eq. intros name.
  pose proof (statusSummary_latest items name) as H.
  pose proof (statusSummary_latest items' name) as H'.
  destruct (statusSummary items !! name) as [row|],
           (statusSummary items' !! name) as [row'|]; [| | |done].
  - destruct H as (d & (Hd & Hname & Hmax) & ->).
    destruct H' as (d' & (Hd' & Hname' & Hmax') & ->).
    rewrite <- Hperm in Hd'.
    assert (d ∈ statusDocs items') as Hdi by (by rewrite <- Hperm).
    f_equal. f_equal. apply Hfree; [done..|congruence|].
    specialize (Hmax d' Hd' Hname'). specialize (Hmax' d Hdi Hname). lia.
  - destruct H as (d & (Hd & Hname & _) & _).
    rewrite Hperm in Hd. by destruct (H' d Hd).
  - destruct H' as (d' & (Hd' & Hname' & _) & _).
    rewrite <- Hperm in Hd'. by destruct (H d' Hd').
Qed.

Lemma statusSummary_order_independent_witness :
  statusSummary [Some (statusDoc "ec2" 10 0 "fetching");
                 Some (statusDoc "ec2" 30 2 "finished");
                 Some (statusDoc "rds" 20 1 "throttled")]
  = statusSummary [Some (statusDoc "rds" 20 1 "throttled");
                   Some (statusDoc "ec2" 30 2 "finished");
                   Some (statusDoc "ec2" 10 0 "fetching")].
Proof.
  apply statusSummary_order_independent.
  - apply (Permutation_rev [_; _; _]).
  - intros d d' Hd Hd' Hname Htime. cbn in Hd, Hd'.
    apply elem_of_cons in Hd as [->|Hd];
      [|apply elem_of_cons in Hd as [->|Hd];
        [|apply elem_of_cons in Hd as [->|Hd]; [|by apply elem_of_nil in Hd]]];
    (apply elem_of_cons in Hd' as [->|Hd'];
      [|apply elem_of_cons in Hd' as [->|Hd'];
        [|apply elem_of_cons in Hd' as [->|Hd']; [|by apply elem_of_nil in Hd']]]);
    first [reflexivity | discriminate Hname | discriminate Htime].
Defined.

(** X10: what the caller passes under [ResourceName] has no effect on
    the summary: [GetSummary] writes the name of each resource over it
    before the cost search of that resource. *)
Theorem GetSummary_overrides_ResourceName_filter sm range executionID filters x :
  match GetSummary sm range executionID (Some filters) with
  | Ret (summary, err, _) =>
      ∃ filters',
        GetSummary sm range executionID (Some (<["ResourceName" := x]> filters))
        = Ret (summary, err, filters')
  | Panic msg =>
      GetSummary sm range executionID (Some (<["ResourceName" := x]> filters))
      = Panic msg
  end.
Proof.
  destruct (Do (client sm) (statusRequest executionID)) as [res [e|]] eqn:HDo.
  { rewrite (GetSummary_status_fails _ _ _ (Some filters) _ _ HDo).
    eexists. by apply GetSummary_status_fails with res. }
  destruct res as [r|]; [|by unfold GetSummary; rewrite HDo].
  rewrite !(GetSummary_unfold _ _ _ _ r HDo).
  rewrite (go_foldl_ext (addDetailsTo sm executionID (<["ResourceName" := x]> filters))
             (addDetailsTo sm executionID filters)).
  - destruct (go_foldl _ _ _); cbn [go_bind]; [by eexists|done].
  - intros summary entry. unfold addDetailsTo, detailsOf.
    by rewrite insert_insert_eq.
Qed.

Lemma statusSummary_empty items :
  statusSummary items = ∅ ↔ statusDocs items = [].
Proof.
  split; intros H.
  - destruct (statusDocs items) as [|d docs] eqn:Hdocs; [done|].
    destruct (statusSummary_has_row items d) as [row Hrow].
    + rewrite Hdocs. apply list_elem_of_here.
    + by rewrite H, lookup_empty in Hrow.
  - apply map_eq. intros name. rewrite lookup_empty.
    pose proof (statusSummary_latest items name) as Hlatest.
    destruct (statusSummary items !! name); [|done].
    destruct Hlatest as (latest & (Hin & _) & _).
    rewrite H in Hin. by apply elem_of_nil in Hin.
Qed.

(** X11: on a nil map of filters [GetSummary] panics as soon as the
    execution has a status document, on the assignment of the second
    loop; with no status document it returns the empty summary. *)
Theorem GetSummary_nil_filters_panics_on_rows sm range executionID r :
  range_ok range →
  Do (client sm) (statusRequest executionID) = (Some r, None) →
  GetSummary sm range executionID None
  = match statusDocs (Each (client sm) r) with
    | [] => Ret (∅, None, None)
    | _ :: _ => Panic nil_map_assignment
    end.
Proof.
  intros Hok HDo. rewrite (GetSummary_nil_filters _ _ _ r HDo).
  destruct (range _) as [|entry entries] eqn:Hrange.
  - apply (range_ok_nil range) in Hrange; [|done]. rewrite Hrange.
    apply statusSummary_empty in Hrange. by rewrite Hrange.
  - destruct (statusDocs _) as [|d docs] eqn:Hdocs; [|done].
    apply statusSummary_empty, (range_ok_nil range) in Hdocs; [|done]. congruence.
Qed.

Lemma GetSummary_nil_filters_panics_on_rows_witness :
  GetSummary tiedReports map_to_list "run_1" None = Panic nil_map_assignment
  ∧ GetSummary noReports map_to_list "run_1" None = Ret (∅, None, None).
Proof.
  split.
  - apply (GetSummary_nil_filters_panics_on_rows tiedReports map_to_list "run_1"
             (result ["first"; "second"] [])); [by intros m|reflexivity].
  - apply (GetSummary_nil_filters_panics_on_rows noReports map_to_list "run_1"
             (result [] [])); [by intros m|reflexivity].
Defined.

Lemma getResourceSummaryDetails_returns sm executionID filters :
  (∃ out, getResourceSummaryDetails sm executionID filters = Ret out)
  ↔ is_Some (Do (client sm) (detailsRequest sm executionID filters)).1.
Proof.
  unfold getResourceSummaryDetails.
  destruct (Do _ _) as [[r|] [e|]]; cbn [fst deref go_bind].
  - split; [by eexists|]. intros _. by eexists.
  - split; [by eexists|]. intros _.
    destruct (Terms _ _ _) as [resp|]; [|by eexists].
    destruct (_ !! "value"); by eexists.
  - split; [by intros [? ?]|by intros [? ?]].
  - split; [by intros [? ?]|by intros [? ?]].
Qed.

Lemma second_loop_returns sm executionID filters entries :
  (∀ entry, entry ∈ entries →
            ∃ details, detailsOf sm executionID filters entry.1 = Ret details) →
  ∀ summary,
    ∃ summary',
      go_foldl (addDetailsTo sm executionID filters) summary entries = Ret summary'.
Proof.
  induction entries as [|entry entries IH]; intros Hall summary; [by eexists|].
  cbn [go_foldl]. unfold addDetailsTo at 1.
  destruct (Hall entry) as (details & ->); [apply list_elem_of_here|].
  cbn [go_bind].
  destruct (details.2); cbn [go_bind]; apply IH; intros e He;
    apply Hall; by apply list_elem_of_further.
Qed.

(** X12: after a status search that succeeded, and on filters that are
    a map, [GetSummary] returns exactly if the client returns a result
    for the cost search of every resource with a status document; a
    single cost search without result makes the whole call panic. *)
Theorem GetSummary_returns_iff_cost_searches_return sm range executionID filters r :
  range_ok range →
  Do (client sm) (statusRequest executionID) = (Some r, None) →
  (∃ out, GetSummary sm range executionID (Some filters) = Ret out)
  ↔ ∀ d, d ∈ statusDocs (Each (client sm) r) →
         is_Some (Do (client sm)
                    (detailsRequest sm executionID
                       (Some (<["ResourceName" := storage.Summary_ResourceName d]>
                                filters)))).1.
Proof.
  intros Hok HDo. split.
  - intros [[[summary err] filters'] Hret] d Hd.
    destruct (GetSummary_rows _ _ _ _ _ _ _ _ Hok HDo Hret) as (_ & _ & Hrows).
    specialize (Hrows (storage.Summary_ResourceName d)).
    destruct (statusSummary_has_row _ d Hd) as [row Hrow]. rewrite Hrow in Hrows.
    destruct Hrows as (details & Hdetails & _).
    apply getResourceSummaryDetails_returns. by exists details.
  - intros Hall. rewrite (GetSummary_unfold _ _ _ _ r HDo).
    destruct (second_loop_returns sm executionID filters
                (range (statusSummary (Each (client sm) r)))) with
      (summary := statusSummary (Each (client sm) r)) as [summary' ->];
      [|by eexists].
    intros [name data] Hentry. apply (range_ok_elem_of range) in Hentry; [|done].
    pose proof (statusSummary_latest (Each (client sm) r) name) as Hlatest.
    rewrite Hentry in Hlatest. destruct Hlatest as (latest & (Hin & <- & _) & _).
    specialize (Hall latest Hin).
    apply getResourceSummaryDetails_returns in Hall as [details Hd].
    by exists details.
Qed.

Lemma GetSummary_returns_iff_cost_searches_return_witness :
  ∃ out, GetSummary twoResources map_to_list "run_1" (Some ∅) = Ret out.
Proof.
  apply (GetSummary_returns_iff_cost_searches_return twoResources map_to_list
           "run_1" ∅ (result ["ec2"; "rds"] [])).
  - intros m. reflexivity.
  - reflexivity.
  - intros d Hd. cbn in Hd.
    apply elem_of_cons in Hd as [->|Hd]; [by eexists|].
    apply elem_of_cons in Hd as [->|Hd]; [by eexists|].
    by apply elem_of_nil in Hd.
Defined.
